(** * Langchain_101: a shallow embedding of the demonstration scripts

    The repository is a set of scripts that wire a chat model, tools and
    checkpoint savers of a third-party library together.  The parts that
    are written in the repository itself are embedded here:

    - [Router]      : [route_model] of [agents/agent_01.py];
    - [Script]      : the statements the scripts are made of (a local
                      message list, calls to the model, calls to a tool);
    - [Model01]     : [tool_calling_example] of [models/model_01.py];
    - [Message01]   : the "Tool Calling (Full Cycle)" block of
                      [message/message_01.py];
    - [Streaming]   : [explain_like_5] of [agents/agent_00.py] and the
                      accumulation loop at the end of [message_01.py];
    - [Tools01]     : [calc] (the [string_counter] tool) of
                      [tools/tools_01.py];
    - [MemoryStore] : the thread-keyed conversation store the scripts of
                      [short-term-memory/] obtain from the library;
    - [RouterChain] : the prompt of [agents/agent_01.py] piped into the
                      router;
    - [WeatherTool] : [get_weather] and its schema [WeatherInput] of
                      [tools/tools_01.py];
    - [Tools02]     : the context and store tools of [tools/tools_02.py];
    - [ToolCallLoop]: the loop of the agent [agents/agent_02.py] obtains
                      from the library.

    Conventions.  A Python [str] is a Rocq [string] read as a sequence of
    code points below 256.  Console output ([print]) is not modelled.  The
    chat model is an argument of every function that calls it: nothing is
    assumed about what it answers. *)

From Stdlib Require Import String Ascii List ZArith Lia Bool.
From Stdlib Require Import Decimal DecimalString.
From stdpp Require Import base option list strings gmap.

Local Open Scope string_scope.

(** ** Python values shared by the scripts *)

Module Py.

(** Exceptions a script can end with. *)
Inductive exn : Type :=
| IndexError
| ValidationError
| ModelError (reason : string).

Inductive result (A : Type) : Type :=
| Ok (a : A)
| Raise (e : exn).
Arguments Ok {A} a.
Arguments Raise {A} e.

Definition is_ok {A} (r : result A) : bool :=
  match r with Ok _ => true | Raise _ => false end.

(** [s.startswith(prefix)] *)
Fixpoint startswith (prefix s : string) : bool :=
  match prefix, s with
  | EmptyString, _ => true
  | String _ _, EmptyString => false
  | String a prefix', String b s' =>
      if Ascii.eqb a b then startswith prefix' s' else false
  end.

(** [needle in hay] on strings: [needle] occurs at some offset of [hay]. *)
Fixpoint contains (needle hay : string) : bool :=
  match hay with
  | EmptyString => startswith needle EmptyString
  | String _ hay' => startswith needle hay || contains needle hay'
  end.

(** [c.lower()] for an ASCII letter; every other character is kept. *)
Definition ascii_lower_char (c : ascii) : ascii :=
  let n := nat_of_ascii c in
  if (65 <=? n)%nat && (n <=? 90)%nat then ascii_of_nat (n + 32) else c.

Fixpoint ascii_lower (s : string) : string :=
  match s with
  | EmptyString => EmptyString
  | String c s' => String (ascii_lower_char c) (ascii_lower s')
  end.

End Py.
Export Py.

(** ** Messages (langchain_core.messages) *)

Module Messages.

(** An argument value of a tool call, as decoded from the model's JSON. *)
Inductive Json : Type :=
| JStr (s : string)
| JInt (n : Z).

(** The dict [{"name": .., "args": .., "id": ..}] the model emits. *)
Record ToolCall : Type := mkToolCall {
  tc_name : string;
  tc_args : list (string * Json);
  tc_id : string
}.

(** What [model.invoke] returns: always an assistant message. *)
Record AIMessage : Type := mkAI {
  ai_content : string;
  tool_calls : list ToolCall
}.

Inductive Message : Type :=
| SystemMessage (content : string)
| HumanMessage (content : string)
| AI (m : AIMessage)
| ToolMessage (content : string) (tool_call_id : string) (name : string).

Definition content (m : Message) : string :=
  match m with
  | SystemMessage c => c
  | HumanMessage c => c
  | AI a => ai_content a
  | ToolMessage c _ _ => c
  end.

Definition Conversation : Type := list Message.

(** [args["key"]] / [args.get(key)] on the argument dict. *)
Fixpoint dict_get (key : string) (d : list (string * Json)) : option Json :=
  match d with
  | [] => None
  | (k, v) :: d' => if String.eqb k key then Some v else dict_get key d'
  end.

End Messages.
Export Messages.

(** ** agents/agent_01.py : the model router *)

Module Router.

Record ChatOllama : Type := mkChatOllama {
  model : string;
  temperature : Z
}.

Definition simple_model : ChatOllama :=
  {| model := "llama3.2"; temperature := 0 |}.
Definition complex_model : ChatOllama :=
  {| model := "qwen3:14b"; temperature := 0 |}.

(** The prompt's output: the formatted messages. *)
Record ChatPromptValue : Type := mkPromptValue {
  messages : list Message
}.

(** [route_model(info)].  [lower] stands for Python's [str.lower];
    [info.messages[-1]] raises [IndexError] on an empty list. *)
Definition route_model (lower : string -> string) (info : ChatPromptValue)
  : result ChatOllama :=
  match last (messages info) with
  | None => Raise IndexError
  | Some m =>
      let last_message := lower (content m) in
      if contains "search" last_message || contains "trending" last_message
      then Ok complex_model
      else Ok simple_model
  end.

End Router.

(** ** The script monad: a local message list and the calls to the model *)

Module Script.

(** The chat model bound to its tools.  It is an external service: the
    answer may depend on how many calls came before ([nat]) and on the
    conversation sent; it may also fail. *)
Definition Model : Type := nat -> Conversation -> result AIMessage.

(** [messages] is the script's list variable; [round_trips] records, in
    order, every conversation that was sent to the model. *)
Record state : Type := mkState {
  messages : Conversation;
  round_trips : list Conversation
}.

Definition init : state := {| messages := []; round_trips := [] |}.

(** A statement: it ends normally or by an exception, and leaves the
    state as it was at that point. *)
Definition M (A : Type) : Type := state -> result A * state.

Definition ret {A} (a : A) : M A := fun s => (Ok a, s).

Definition bind {A B} (m : M A) (k : A -> M B) : M B :=
  fun s =>
    match m s with
    | (Ok a, s') => k a s'
    | (Raise e, s') => (Raise e, s')
    end.

Definition lift {A} (r : result A) : M A := fun s => (r, s).

(** [messages = l] *)
Definition assign (l : Conversation) : M unit :=
  fun s => (Ok tt, {| messages := l; round_trips := round_trips s |}).

Definition read : M Conversation := fun s => (Ok (messages s), s).

(** [messages.append(m)] *)
Definition append (m : Message) : M unit :=
  fun s => (Ok tt, {| messages := (messages s ++ [m])%list;
                      round_trips := round_trips s |}).

(** [model.invoke(input)]: one round-trip. *)
Definition invoke (model : Model) (input : Conversation) : M AIMessage :=
  fun s => (model (length (round_trips s)) input,
            {| messages := messages s;
               round_trips := (round_trips s ++ [input])%list |}).

(** [for x in l: body(x)] *)
Fixpoint for_each {A} (l : list A) (body : A -> M unit) : M unit :=
  match l with
  | [] => ret tt
  | x :: l' => bind (body x) (fun _ => for_each l' body)
  end.

Declare Scope script_scope.
Delimit Scope script_scope with script.
Notation "'let*' x ':=' m 'in' k" := (bind m (fun x => k))
  (at level 10, x name, m at level 100, k at level 200) : script_scope.
Notation "m ';;' k" := (bind m (fun _ => k))
  (at level 100, k at level 200, right associativity) : script_scope.

(** A tool made by the [@tool] decorator: its name and its function on
    the decoded arguments (argument validation included). *)
Record StructuredTool : Type := mkTool {
  name : string;
  func : list (string * Json) -> result string
}.

(** [tool.invoke(tool_call)] on a call dict, by the library's contract:
    the function's value comes back as a tool message that carries the
    call's id and the tool's name; an error of the function is raised. *)
Definition tool_invoke (t : StructuredTool) (tool_call : ToolCall)
  : result Message :=
  match func t (tc_args tool_call) with
  | Ok value => Ok (ToolMessage value (tc_id tool_call) (name t))
  | Raise e => Raise e
  end.

(** The degree sign, U+00B0. *)
Definition degree : string := String (ascii_of_nat 176) "".

(** From [s] to [s'] the message list was only appended to: it is no
    shorter, and every message of [s] is in [s'] at the same position. *)
Definition grows (s s' : state) : Prop :=
  length (messages s) <= length (messages s') /\
  forall (i : nat) (m : Message),
    messages s !! i = Some m -> messages s' !! i = Some m.

(** Whether the call id [id] is among the requests of an assistant
    message. *)
Definition requests (ai_msg : AIMessage) (id : string) : bool :=
  existsb (fun tool_call => String.eqb (tc_id tool_call) id)
          (tool_calls ai_msg).

(** Every tool message of [conv] answers a request of the assistant
    message that opens its block: [asked] is the assistant message the
    tool messages being read follow, if any. *)
Fixpoint paired_from (asked : option AIMessage) (conv : Conversation)
  : bool :=
  match conv with
  | [] => true
  | AI ai_msg :: rest => paired_from (Some ai_msg) rest
  | ToolMessage _ id _ :: rest =>
      match asked with
      | Some ai_msg => requests ai_msg id
      | None => false
      end && paired_from asked rest
  | _ :: rest => paired_from None rest
  end.

Definition well_paired (conv : Conversation) : bool := paired_from None conv.

(** Whether a conversation holds a tool message for the call id [id]. *)
Definition answered (id : string) (conv : Conversation) : bool :=
  existsb (fun m => match m with
                    | ToolMessage _ id' _ => String.eqb id' id
                    | _ => false
                    end) conv.

End Script.

(** ** models/model_01.py : tool calling *)

Module Model01.
Import Script.
Local Open Scope script_scope.

(** [get_weather(location: str)] *)
Definition get_weather : StructuredTool :=
  {| name := "get_weather";
     func := fun args =>
       match dict_get "location" args with
       | Some (JStr location) =>
           Ok ("It's sunny in " ++ location ++ " with 27" ++ degree ++ "C.")
       | _ => Raise ValidationError
       end |}.

(** The conversation the script starts from. *)
Definition question : Conversation :=
  [HumanMessage "What's the weather in Mumbai right now?"].

(** Step 1: the model decides whether to call tools. *)
Definition step1 (model_with_tools : Model) : M AIMessage :=
  let* messages := read in
  let* ai_msg := invoke model_with_tools messages in
  append (AI ai_msg);;
  ret ai_msg.

(** The body of the loop of step 2, for one requested call. *)
Definition execute_tool_call (tool_call : ToolCall) : M unit :=
  if String.eqb (tc_name tool_call) "get_weather" then
    let* tool_result := lift (tool_invoke get_weather tool_call) in
    append tool_result
  else ret tt.

(** Step 2: execute any tools requested. *)
Definition step2 (ai_msg : AIMessage) : M unit :=
  for_each (tool_calls ai_msg) execute_tool_call.

(** Step 3: send the tool results back for the final answer. *)
Definition step3 (model_with_tools : Model) : M string :=
  let* messages := read in
  let* final_resp := invoke model_with_tools messages in
  ret (ai_content final_resp).

(** [tool_calling_example()]; the value is the content it prints. *)
Definition tool_calling_example (model_with_tools : Model) : M string :=
  assign question;;
  let* ai_msg := step1 model_with_tools in
  step2 ai_msg;;
  step3 model_with_tools.

(** What step 2 leaves behind for the requested calls: the tool messages
    it appends, in order, and the exception that stops it, if any. *)
Fixpoint answers (calls : list ToolCall) : list Message * option exn :=
  match calls with
  | [] => ([], None)
  | tool_call :: rest =>
      if String.eqb (tc_name tool_call) "get_weather" then
        match tool_invoke get_weather tool_call with
        | Ok tool_result =>
            (tool_result :: (answers rest).1, (answers rest).2)
        | Raise e => ([], Some e)
        end
      else answers rest
  end.

(** How step 2 ends. *)
Definition outcome (stop : option exn) : result unit :=
  match stop with
  | None => Ok tt
  | Some e => Raise e
  end.

(** The requested calls the loop of step 2 executes. *)
Definition weather_calls (ai_msg : AIMessage) : list ToolCall :=
  List.filter (fun tool_call => String.eqb (tc_name tool_call) "get_weather")
              (tool_calls ai_msg).

End Model01.

(** ** message/message_01.py : "5. Tool Calling (Full Cycle)" *)

Module Message01.
Import Script.
Local Open Scope script_scope.

(** [get_weather(location: str)] *)
Definition get_weather : StructuredTool :=
  {| name := "get_weather";
     func := fun args =>
       match dict_get "location" args with
       | Some (JStr location) =>
           Ok ("Sunny, 25" ++ degree ++ "C in " ++ location)
       | _ => Raise ValidationError
       end |}.

Definition query : string := "What is the weather in Tokyo?".

(** The block 5c-5e.  [str] is the library's rendering of a message
    ([str(tool_result)]); a string given to [invoke] is sent as one
    human message.  The value is [final_messages] and the final answer,
    or [None] when the model decided not to call a tool. *)
Definition tool_calling_full_cycle (str : Message -> string)
    (model_with_tools : Model) : M (option (Conversation * string)) :=
  let* ai_msg_with_tool_call :=
    invoke model_with_tools [HumanMessage query] in
  match tool_calls ai_msg_with_tool_call with
  | tool_call_data :: _ =>
      let* tool_result := lift (tool_invoke get_weather tool_call_data) in
      let tool_msg :=
        ToolMessage (str tool_result) (tc_id tool_call_data)
                    (tc_name tool_call_data) in
      let final_messages :=
        [HumanMessage query; AI ai_msg_with_tool_call; tool_msg] in
      let* final_response := invoke model_with_tools final_messages in
      ret (Some (final_messages, ai_content final_response))
  | [] => ret None
  end.

End Message01.

(** ** Stub models, for running the scripts *)

Module Stubs.
Import Script.

Definition mumbai (id : string) : ToolCall :=
  mkToolCall "get_weather" [("location", JStr "Mumbai")] id.

(** Answers in plain text, with no tool call. *)
Definition plain_answer : Model :=
  fun _ _ => Ok (mkAI "It is sunny in Mumbai." []).

(** Requests a tool that is not bound, then the weather. *)
Definition unknown_tool : Model :=
  fun _ _ => Ok (mkAI "" [mkToolCall "get_time" [("zone", JStr "IST")] "call_1";
                          mumbai "call_2"]).

(** Requests the weather with an argument the tool does not have. *)
Definition wrong_argument : Model :=
  fun _ _ => Ok (mkAI "" [mkToolCall "get_weather" [("city", JStr "Mumbai")]
                                     "call_1"]).

(** Requests the weather on every response. *)
Definition always_requests : Model :=
  fun _ _ => Ok (mkAI "Let me check." [mumbai "call_1"]).

(** A rendering of messages, for [str(message)]. *)
Definition str_content (m : Message) : string := content m.

End Stubs.

(** ** agents/agent_00.py and the streaming loop of message_01.py *)

Module Streaming.

Record AIMessageChunk : Type := mkChunk { chunk_content : string }.

(** [explain_like_5(topic)]: the generator yields the content of every
    chunk of [chain.stream], where the chain formats the prompt and pipes
    it into the model.  [llm_stream] is the model's stream for a prompt. *)
Definition explain_like_5 (llm_stream : Conversation -> list AIMessageChunk)
    (topic : string) : list string :=
  let prompt :=
    "Explain the following topic like I'm 5 years old: " ++ topic in
  map chunk_content (llm_stream [HumanMessage prompt]).

(** [full_text = ""; for chunk in ...: full_text += str(chunk.content)] *)
Definition full_text (chunks : list AIMessageChunk) : string :=
  fold_left (fun acc chunk => acc ++ chunk_content chunk) chunks "".

End Streaming.

(** ** tools/tools_01.py : the string_counter tool *)

Module Tools01.

(** An insertion-ordered [dict] from characters to counts. *)
Definition Dict : Type := list (ascii * nat).

(** [d.get(k, default)] *)
Fixpoint get (d : Dict) (k : ascii) (default : nat) : nat :=
  match d with
  | [] => default
  | (k', v) :: d' => if Ascii.eqb k' k then v else get d' k default
  end.

(** [d[k] = v]: an existing key keeps its place, a new key goes last. *)
Fixpoint set (d : Dict) (k : ascii) (v : nat) : Dict :=
  match d with
  | [] => [(k, v)]
  | (k', v') :: d' =>
      if Ascii.eqb k' k then (k', v) :: d' else (k', v') :: set d' k v
  end.

(** [Counter(iterable)]:
    [for elem in iterable: mapping[elem] = mapping.get(elem, 0) + 1] *)
Definition Counter (iterable : list ascii) : Dict :=
  fold_left (fun mapping elem => set mapping elem (get mapping elem 0 + 1))
            iterable [].

(** [str(n)] for a count. *)
Definition str_int (n : nat) : string :=
  NilEmpty.string_of_uint (Nat.to_uint n).

Definition quote : ascii := ascii_of_nat 39.
Definition dquote : ascii := ascii_of_nat 34.
Definition backslash : ascii := ascii_of_nat 92.

Definition hex_digit (n : nat) : ascii :=
  nth n (list_ascii_of_string "0123456789abcdef") "0"%char.

(** [str.isprintable] on the code points below 256. *)
Definition printable (c : ascii) : bool :=
  let n := nat_of_ascii c in
  ((32 <=? n) && (n <? 127) || (161 <=? n) && negb (n =? 173))%nat.

Fixpoint has_char (c : ascii) (s : string) : bool :=
  match s with
  | EmptyString => false
  | String a s' => Ascii.eqb a c || has_char c s'
  end.

(** One character inside [repr(s)], [q] being the enclosing quote. *)
Definition repr_char (q c : ascii) : string :=
  let n := nat_of_ascii c in
  if Ascii.eqb c q || Ascii.eqb c backslash then String backslash (String c "")
  else if (n =? 9)%nat then String backslash "t"
  else if (n =? 10)%nat then String backslash "n"
  else if (n =? 13)%nat then String backslash "r"
  else if printable c then String c ""
  else String backslash
         (String "x" (String (hex_digit (n / 16))
                             (String (hex_digit (n mod 16)) ""))).

Fixpoint repr_body (q : ascii) (s : string) : string :=
  match s with
  | EmptyString => EmptyString
  | String c s' => repr_char q c ++ repr_body q s'
  end.

(** [repr(s)]: double quotes only when [s] has a single quote and no
    double quote. *)
Definition repr (s : string) : string :=
  let q := if has_char quote s && negb (has_char dquote s)
           then dquote else quote in
  String q (repr_body q s ++ String q "").

(** [", ".join(items)] *)
Fixpoint join (items : list string) : string :=
  match items with
  | [] => ""
  | [x] => x
  | x :: rest => x ++ ", " ++ join rest
  end.

(** [str(d)] of a dict with one-character keys. *)
Definition str_dict (d : Dict) : string :=
  "{" ++ join (map (fun '(k, v) => repr (String k "") ++ ": " ++ str_int v) d)
      ++ "}".

(** [calc(word)]: [return str(dict(Counter(word)))] *)
Definition calc (word : string) : string :=
  str_dict (Counter (list_ascii_of_string word)).

(** The claim's words: the number of occurrences of [c] in the word, *)
Fixpoint occurrences (c : ascii) (word : list ascii) : nat :=
  match word with
  | [] => 0
  | a :: word' => (if Ascii.eqb a c then 1 else 0) + occurrences c word'
  end.

(** its distinct characters, by first occurrence, *)
Fixpoint distinct (word : list ascii) : list ascii :=
  match word with
  | [] => []
  | a :: word' =>
      a :: List.filter (fun x => negb (Ascii.eqb x a)) (distinct word')
  end.

(** and the mapping of each distinct character to its count. *)
Definition frequency_mapping (word : list ascii) : Dict :=
  map (fun c => (c, occurrences c word)) (distinct word).

End Tools01.

(** ** short-term-memory/ : the thread-keyed store *)

Module MemoryStore.

Inductive Backend : Type := Volatile | Durable.

(** Modelled from the spec: the Memory Store of section 4.4, which the
    scripts get from the library's checkpointer classes ([InMemorySaver],
    [PostgresSaver]; their code is not in the repository): a mapping from
    thread identifier to Conversation, in a volatile or a durable
    variant. *)
Record Store : Type := mkStore {
  backend : Backend;
  threads : gmap string Conversation
}.

(** Modelled from the spec: a store in which no thread has been seen
    (the library's constructor, absent from the repository). *)
Definition new (b : Backend) : Store := {| backend := b; threads := ∅ |}.

(** Modelled from the spec: [load(thread_id)] of section 4.4 (library
    code, absent): the stored Conversation, or an empty one if unseen. *)
Definition load (st : Store) (thread_id : string) : Conversation :=
  default [] (threads st !! thread_id).

(** Modelled from the spec: [save(thread_id, conversation)] of section
    4.4 (library code, absent): overwrites the stored value of that
    thread. *)
Definition save (st : Store) (thread_id : string) (c : Conversation)
  : Store :=
  {| backend := backend st; threads := <[thread_id := c]> (threads st) |}.

(** Modelled from the spec: the process restarts (section 4.4, library
    behaviour): a volatile store is lost, a durable one is kept. *)
Definition restart (st : Store) : Store :=
  match backend st with
  | Volatile => new Volatile
  | Durable => st
  end.

(** Modelled from the spec: [agent.invoke(input, config)] with a
    checkpointer, by the data flow of section 2 (the agent executor is
    library code, absent): the prior Conversation of the thread is loaded,
    the new message appended, the loop run on it, and the resulting
    Conversation written back.  [loop] is the agent's run. *)
Definition agent_invoke (loop : Conversation -> Conversation)
    (st : Store) (thread_id : string) (user_message : Message)
  : Store * Conversation :=
  let prior := load st thread_id in
  let output := loop (prior ++ [user_message])%list in
  (save st thread_id output, output).

(** memory_01.py: three invocations on thread ["1"], starting from a
    fresh [InMemorySaver()]. *)
Definition memory_01 (loop : Conversation -> Conversation)
  : Store * (Conversation * Conversation * Conversation) :=
  let st0 := new Volatile in
  let '(st1, output) :=
    agent_invoke loop st0 "1" (HumanMessage "Hi! My name is Bob.") in
  let '(st2, output2) :=
    agent_invoke loop st1 "1"
      (HumanMessage "Can you tell me more above Taiwan!") in
  let '(st3, output3) :=
    agent_invoke loop st2 "1"
      (HumanMessage "Can you tell me export and Imports of that country?") in
  (st3, (output, output2, output3)).

End MemoryStore.

(** ** agents/agent_01.py : the prompt in front of the router *)

Module RouterChain.
Import Router.

(** The text of the template before its [{input}] placeholder. *)
Definition template : string := "Answer the following question concisely: ".

(** [prompt.invoke({"input": user_input})]: one human message, the
    template with the input put in place of [{input}]. *)
Definition prompt (user_input : string) : ChatPromptValue :=
  {| messages := [HumanMessage (template ++ user_input)] |}.

(** The first two stages of [chain]: the prompt piped into
    [RunnableLambda(route_model)]. *)
Definition chain_route (lower : string -> string) (user_input : string)
  : result ChatOllama :=
  route_model lower (prompt user_input).

End RouterChain.

(** ** tools/tools_01.py : the weather tool with a schema *)

Module WeatherTool.
Import Script.

(** [c.upper()] for an ASCII letter; every other character is kept. *)
Definition ascii_upper_char (c : ascii) : ascii :=
  let n := nat_of_ascii c in
  if (97 <=? n)%nat && (n <=? 122)%nat then ascii_of_nat (n - 32) else c.

Fixpoint ascii_upper (s : string) : string :=
  match s with
  | EmptyString => EmptyString
  | String c s' => String (ascii_upper_char c) (ascii_upper s')
  end.

(** [get_weather(city, units)].  [upper] stands for Python's [str.upper];
    [units.upper()[0]] raises [IndexError] on an empty string. *)
Definition get_weather (upper : string -> string) (city units : string)
  : result string :=
  let temp := if String.eqb units "celsius" then 25 else 77 in
  match upper units with
  | EmptyString => Raise IndexError
  | String letter _ =>
      Ok ("Weather in " ++ city ++ ": Sunny, " ++ Tools01.str_int temp
          ++ degree ++ String letter EmptyString)
  end.

(** [WeatherInput]: [city] is a string; [units] is one of the two
    literals, ["celsius"] when absent. *)
Definition WeatherInput (args : list (string * Json))
  : result (string * string) :=
  match dict_get "city" args with
  | Some (JStr city) =>
      match dict_get "units" args with
      | None => Ok (city, "celsius")
      | Some (JStr units) =>
          if String.eqb units "celsius" || String.eqb units "fahrenheit"
          then Ok (city, units)
          else Raise ValidationError
      | Some (JInt _) => Raise ValidationError
      end
  | _ => Raise ValidationError
  end.

(** [@tool(args_schema=WeatherInput)]: the arguments are validated
    against the schema, then passed to the function. *)
Definition weather_tool (upper : string -> string) : StructuredTool :=
  {| name := "get_weather";
     func := fun args =>
       match WeatherInput args with
       | Ok (city, units) => get_weather upper city units
       | Raise e => Raise e
       end |}.

End WeatherTool.

(** ** tools/tools_02.py : tools that read the context and the store *)

Module Tools02.

Record UserContext : Type := mkUser {
  user_id : string;
  username : string
}.

(** The run-time config: [configurable] is [None] when the config has no
    ["configurable"] entry; inside it, the ["user_context"] entry or
    [None]. *)
Record RunnableConfig : Type := mkConfig {
  configurable : option (option UserContext)
}.

(** How a tool ends: with its string, by the [KeyError] of a missing dict
    key, or by the error of a store that refuses a namespace. *)
Inductive outcome : Type :=
| Returns (value : string)
| KeyError (key : string)
| InvalidNamespaceError.

(** A namespace is a tuple of strings; a stored value is a dict. *)
Definition Namespace : Type := list string.
Definition Value : Type := list (string * string).

Fixpoint value_get (key : string) (d : Value) : option string :=
  match d with
  | [] => None
  | (k, v) :: d' => if String.eqb k key then Some v else value_get key d'
  end.

(** The backend of a store ([BaseStore]): [write] records the value of a
    key of a namespace, [get] reads the stored value, if any. *)
Class BaseStore (S : Type) : Type := {
  write : S -> Namespace -> string -> Value -> S;
  get : S -> Namespace -> string -> option Value
}.

(** What a backend promises: a key reads back what was last written under
    it, and a [write] leaves every other key as it was. *)
Class BaseStoreOk (S : Type) `{BaseStore S} : Prop := {
  get_write_same : forall (st : S) ns key value,
    get (write st ns key value) ns key = Some value;
  get_write_other : forall (st : S) ns key value ns' key',
    (ns, key) <> (ns', key') ->
    get (write st ns key value) ns' key' = get st ns' key'
}.

(** The library's check of a namespace label: it is not the empty string
    and holds no period. *)
Definition valid_label (label : string) : bool :=
  negb (String.eqb label "") && negb (contains "." label).

(** The library's check of a namespace: it is not the empty tuple, every
    label is valid, and the first one is not "langgraph". *)
Definition valid_namespace (ns : Namespace) : bool :=
  match ns with
  | [] => false
  | root :: _ => forallb valid_label ns && negb (String.eqb root "langgraph")
  end.

(** [store.put(namespace, key, value)]: the namespace is checked first; a
    refused namespace ([None]) raises [InvalidNamespaceError] and nothing
    is written. *)
Definition put {S} `{BaseStore S} (st : S) (ns : Namespace) (key : string)
    (value : Value) : option S :=
  if valid_namespace ns then Some (write st ns key value) else None.

(** [InMemoryStore()]: a finite map. *)
Definition InMemoryStore : Type := gmap (Namespace * string) Value.

#[global] Instance InMemoryStore_store : BaseStore InMemoryStore := {
  write st ns key value := <[(ns, key) := value]> st;
  get st ns key := st !! (ns, key)
}.

(** [get_current_user_info(config)] *)
Definition get_current_user_info (config : RunnableConfig) : outcome :=
  match configurable config with
  | None => KeyError "configurable"
  | Some None => Returns "No user context found."
  | Some (Some user) =>
      Returns ("User ID: " ++ user_id user ++ ", Username: "
               ++ username user)
  end.

(** [save_user_fact(fact, config, store)]: the value and the store as
    the call leaves it. *)
Definition save_user_fact {S} `{BaseStore S} (fact : string)
    (config : RunnableConfig) (store : S) : outcome * S :=
  match configurable config with
  | None => (KeyError "configurable", store)
  | Some None => (Returns "Error: No user context.", store)
  | Some (Some user) =>
      match put store ["facts"; user_id user] "latest_fact" [("text", fact)]
      with
      | Some store' => (Returns "Fact saved successfully.", store')
      | None => (InvalidNamespaceError, store)
      end
  end.

(** [recall_user_fact(config, store)] *)
Definition recall_user_fact {S} `{BaseStore S} (config : RunnableConfig)
    (store : S) : outcome :=
  match configurable config with
  | None => KeyError "configurable"
  | Some None => Returns "Error: No user context."
  | Some (Some user) =>
      match get store ["facts"; user_id user] "latest_fact" with
      | Some value =>
          match value_get "text" value with
          | Some text => Returns ("Recall: " ++ text)
          | None => KeyError "text"
          end
      | None => Returns "No facts stored."
      end
  end.

(** A session: the facts saved one after the other, each under the
    config of its call. *)
Fixpoint save_all {S} `{BaseStore S}
    (calls : list (string * RunnableConfig)) (store : S) : S :=
  match calls with
  | [] => store
  | (fact, config) :: rest =>
      save_all rest (save_user_fact fact config store).2
  end.

(** The fact saved last for the user [id] in a session, if any. *)
Fixpoint latest_fact (id : string) (calls : list (string * RunnableConfig))
    (before : option string) : option string :=
  match calls with
  | [] => before
  | (fact, config) :: rest =>
      match configurable config with
      | Some (Some user) =>
          if String.eqb (user_id user) id
          then latest_fact id rest (Some fact)
          else latest_fact id rest before
      | _ => latest_fact id rest before
      end
  end.

End Tools02.

(** ** Sample sessions, for running the tools of tools_02.py *)

Module Sessions.
Import Tools02.

Definition alice : RunnableConfig :=
  mkConfig (Some (Some (mkUser "u_123" "Alice"))).
Definition bob : RunnableConfig :=
  mkConfig (Some (Some (mkUser "u_456" "Bob"))).

(** A config whose "configurable" entry has no user context. *)
Definition anonymous : RunnableConfig := mkConfig (Some None).

Definition fresh : InMemoryStore := ∅.

(** A user whose id is the empty string, and one with a period in it:
    the store refuses their namespaces. *)
Definition nameless : RunnableConfig :=
  mkConfig (Some (Some (mkUser "" "Nobody"))).
Definition dotted : RunnableConfig :=
  mkConfig (Some (Some (mkUser "u.123" "Dot"))).

Definition afternoon : list (string * RunnableConfig) :=
  [("I love coding.", alice); ("I like tea.", bob);
   ("I am nobody.", nameless); ("I love proofs.", alice);
   ("Nobody said this.", anonymous); ("I have a dot.", dotted)].

End Sessions.

(** ** The tool-call loop of the agent (agents/agent_02.py) *)

Module ToolCallLoop.

(** Modelled from the spec: the failures of the Model Client's [complete]
    (section 4.1); the client is the library's and is not in the
    repository. *)
Inductive ClientError : Type :=
| UnavailableError
| InvalidInputError.

(** Modelled from the spec: [complete] of the Model Client (section 4.1,
    library code absent from the repository): for a conversation it gives
    one new assistant message or fails.  The number is how many
    round-trips came before, so that nothing is assumed about what the
    client answers from one call to the next. *)
Definition ModelClient : Type := nat -> Conversation -> ClientError + AIMessage.

(** Modelled from the spec: [execute] of the Tool Registry (section 4.2,
    library code absent from the repository): the serialized return value
    of the call, or an error text; a fault is never propagated. *)
Definition ToolRegistry : Type := ToolCall -> string.

(** Modelled from the spec: why the loop ends in FAILED (sections 4.3 and
    7; the agent executor made by [create_agent] is library code, absent
    from the repository). *)
Inductive Failure : Type :=
| ClientFailure (e : ClientError)
| MaxIterationsExceeded.

(** Modelled from the spec: the states of the Tool-Call Loop of section
    4.3 (the agent executor made by [create_agent] is library code, absent
    from the repository); EXECUTING_TOOLS holds the requests of the last
    assistant message. *)
Inductive LoopState : Type :=
| AWAITING_MODEL
| EXECUTING_TOOLS (requests : list ToolCall)
| DONE
| FAILED (reason : Failure).

(** Modelled from the spec: a loop in progress (section 4.3, library code
    absent from the repository): its state, the Conversation, and the
    number of round-trips to the model made so far. *)
Record Loop : Type := mkLoop {
  state : LoopState;
  conversation : Conversation;
  round_trips : nat
}.

(** Modelled from the spec: the default of the configurable iteration
    ceiling (section 4.3: "configurable, default e.g. 10"; the executor is
    library code, absent from the repository). *)
Definition default_ceiling : nat := 10.

(** Modelled from the spec: the tool message that answers a request
    (sections 3 and 4.2, library code absent): the result carries the same
    call id. *)
Definition answer (registry : ToolRegistry) (request : ToolCall) : Message :=
  ToolMessage (registry request) (tc_id request) (tc_name request).

(** Modelled from the spec: one transition of the Tool-Call Loop (section
    4.3, library code absent from the repository).  In AWAITING_MODEL the
    loop fails with MaxIterationsExceeded once [ceiling] iterations were
    made; otherwise it calls [complete], fails if the client fails, and
    appends the response, going to DONE if it has no tool call and to
    EXECUTING_TOOLS if it has.  In EXECUTING_TOOLS it appends the answer to
    each request, in order, and goes back to AWAITING_MODEL.  DONE and
    FAILED are final. *)
Definition step (ceiling : nat) (client : ModelClient)
    (registry : ToolRegistry) (l : Loop) : Loop :=
  match state l with
  | AWAITING_MODEL =>
      if (ceiling <=? round_trips l)%nat then
        {| state := FAILED MaxIterationsExceeded;
           conversation := conversation l;
           round_trips := round_trips l |}
      else
        match client (round_trips l) (conversation l) with
        | inl e =>
            {| state := FAILED (ClientFailure e);
               conversation := conversation l;
               round_trips := S (round_trips l) |}
        | inr response =>
            {| state := match tool_calls response with
                        | [] => DONE
                        | requests => EXECUTING_TOOLS requests
                        end;
               conversation := (conversation l ++ [AI response])%list;
               round_trips := S (round_trips l) |}
        end
  | EXECUTING_TOOLS requests =>
      {| state := AWAITING_MODEL;
         conversation :=
           (conversation l ++ map (answer registry) requests)%list;
         round_trips := round_trips l |}
  | DONE => l
  | FAILED _ => l
  end.

(** Modelled from the spec: the initial state of the loop (section 4.3,
    library code absent): AWAITING_MODEL, the user message appended to the
    Conversation. *)
Definition start (prior : Conversation) (user_message : Message) : Loop :=
  {| state := AWAITING_MODEL;
     conversation := (prior ++ [user_message])%list;
     round_trips := 0 |}.

(** Modelled from the spec: [n] transitions in a row (section 4.3, library
    code absent). *)
Fixpoint steps (ceiling : nat) (client : ModelClient)
    (registry : ToolRegistry) (n : nat) (l : Loop) : Loop :=
  match n with
  | O => l
  | S n' =>
      steps ceiling client registry n' (step ceiling client registry l)
  end.

(** Modelled from the spec: a run of the Tool-Call Loop (section 4.3,
    library code absent from the repository): from the initial state, two
    transitions for each iteration the ceiling allows, and one more. *)
Definition tool_call_loop (ceiling : nat) (client : ModelClient)
    (registry : ToolRegistry) (prior : Conversation)
    (user_message : Message) : Loop :=
  steps ceiling client registry (2 * ceiling + 1) (start prior user_message).

(** Whether the loop has ended. *)
Definition finished (l : Loop) : bool :=
  match state l with
  | DONE | FAILED _ => true
  | AWAITING_MODEL | EXECUTING_TOOLS _ => false
  end.

(** A client that requests a tool call on every response. *)
Definition always_requests (client : ModelClient) : Prop :=
  forall (n : nat) (conv : Conversation),
    exists response, client n conv = inr response /\
                     tool_calls response <> [].

(** A stub: it asks for the product of 134 and 12 again and again. *)
Definition insistent : ModelClient :=
  fun _ _ => inr (mkAI "" [mkToolCall "multiply"
                             [("a", JInt 134); ("b", JInt 12)] "call_1"]).

Definition calculator : ToolRegistry := fun _ => "1608".

End ToolCallLoop.

(** * Theorems *)

Section RouterFacts.
Import Router.

Lemma append_nil (s : string) : "" ++ s = s.
Proof. reflexivity. Qed.

Lemma append_cons (a : ascii) (s t : string) :
  String a s ++ t = String a (s ++ t).
Proof. reflexivity. Qed.

Lemma startswith_spec (p s : string) :
  startswith p s = true <-> exists rest, s = p ++ rest.
Proof.
  revert s; induction p as [|a p IH]; intros s; simpl.
  - split; [intros _; by exists s | done].
  - destruct s as [|b s].
    + split; [done | intros [r Hr]; discriminate].
    + destruct (Ascii.eqb_spec a b) as [->|Hne].
      * rewrite IH. split; intros [r Hr]; exists r;
          rewrite append_cons in *; congruence.
      * split; [done | intros [r Hr]; rewrite append_cons in Hr; congruence].
Qed.

(** [contains] is the substring relation. *)
Lemma contains_spec (needle hay : string) :
  contains needle hay = true <->
  exists before after, hay = before ++ needle ++ after.
Proof.
  induction hay as [|c hay IH]; simpl.
  - rewrite startswith_spec. split.
    + intros [r Hr]. exists "", r. done.
    + intros [b [a Ha]]. destruct b; [|discriminate].
      rewrite append_nil in Ha. by exists a.
  - rewrite orb_true_iff, IH, startswith_spec. split.
    + intros [[r Hr] | [b [a Ha]]].
      * exists "", r. done.
      * exists (String c b), a. rewrite append_cons. by rewrite Ha.
    + intros [b [a Ha]]. destruct b as [|c' b].
      * left. rewrite append_nil in Ha. by exists a.
      * right. rewrite append_cons in Ha. exists b, a. congruence.
Qed.

Lemma route_model_empty (lower : string -> string) :
  route_model lower (mkPromptValue []) = Raise IndexError.
Proof. reflexivity. Qed.

Lemma route_model_last (lower : string -> string)
    (before : list Message) (m : Message) :
  route_model lower (mkPromptValue (before ++ [m])) =
  if contains "search" (lower (content m))
     || contains "trending" (lower (content m))
  then Ok complex_model else Ok simple_model.
Proof. unfold route_model; simpl. by rewrite last_snoc. Qed.

Example route_model_trending :
  route_model ascii_lower
    (mkPromptValue
       [HumanMessage
          ("Answer the following question concisely: "
           ++ "Search, what is trending in education sector nowadays?")])
  = Ok complex_model.
Proof. reflexivity. Qed.

Example route_model_plain :
  route_model ascii_lower
    (mkPromptValue
       [HumanMessage "Answer the following question concisely: Hi"])
  = Ok simple_model.
Proof. reflexivity. Qed.

(** C9.  [route_model] depends on the last formatted message only: it
    returns the complex model exactly when the lowercased content of the
    last message contains "search" or contains "trending" as a substring,
    and the simple model exactly when it contains neither; the messages
    before the last one play no part. *)
Theorem route_model_selects (lower : string -> string)
    (before : list Message) (m : Message) :
  let text := lower (content m) in
  let info := mkPromptValue (before ++ [m]) in
  let wanted :=
    (exists a b, text = a ++ "search" ++ b) \/
    (exists a b, text = a ++ "trending" ++ b) in
  (route_model lower info = Ok complex_model <-> wanted) /\
  (route_model lower info = Ok simple_model <-> ~ wanted) /\
  (forall before' : list Message,
      route_model lower (mkPromptValue (before' ++ [m]))
      = route_model lower info).
Proof.
  intros text info wanted. subst info.
  assert (Hw : contains "search" text || contains "trending" text = true
               <-> wanted).
  { rewrite orb_true_iff, !contains_spec. reflexivity. }
  rewrite route_model_last. fold text.
  destruct (contains "search" text || contains "trending" text) eqn:E.
  - repeat split; try done.
    + intros _. by apply Hw.
    + intros Hn. exfalso. apply Hn. by apply Hw.
    + intros. rewrite route_model_last. fold text. by rewrite E.
  - repeat split; try done.
    + intros Hy. apply Hw in Hy. discriminate.
    + intros _ Hy. apply Hw in Hy. discriminate.
    + intros. rewrite route_model_last. fold text. by rewrite E.
Qed.

End RouterFacts.

(** ** tools_01.py : [calc] *)

Section Tools01Facts.
Import Tools01.

Implicit Types (c a : ascii) (l ks : list ascii) (g : ascii -> nat).

Lemma occurrences_snoc c a l :
  occurrences c (l ++ [a]) =
  occurrences c l + (if Ascii.eqb a c then 1 else 0).
Proof. induction l as [|b l IH]; simpl; [lia | rewrite IH; lia]. Qed.

Lemma occurrences_not_elem c l : c ∉ l -> occurrences c l = 0.
Proof.
  induction l as [|b l IH]; simpl; [done |].
  intros Hn. apply not_elem_of_cons in Hn as [Hne Hn].
  destruct (Ascii.eqb_spec b c); [congruence | by rewrite IH].
Qed.

Lemma occurrences_elem c l : c ∈ l -> 0 < occurrences c l.
Proof.
  induction l as [|b l IH]; simpl.
  - by intros ?%elem_of_nil.
  - intros [->|Hin]%elem_of_cons.
    + rewrite Ascii.eqb_refl. lia.
    + specialize (IH Hin). lia.
Qed.

Lemma elem_of_filter_neq c a ks :
  c ∈ List.filter (fun x => negb (Ascii.eqb x a)) ks <-> c ≠ a /\ c ∈ ks.
Proof.
  rewrite !list_elem_of_In, filter_In, negb_true_iff.
  destruct (Ascii.eqb_spec c a); intuition congruence.
Qed.

Lemma elem_of_distinct c l : c ∈ distinct l <-> c ∈ l.
Proof.
  induction l as [|b l IH]; simpl; [done |].
  rewrite !elem_of_cons, elem_of_filter_neq, IH.
  destruct (decide (c = b)); tauto.
Qed.

Lemma NoDup_filter_neq a ks :
  NoDup ks -> NoDup (List.filter (fun x => negb (Ascii.eqb x a)) ks).
Proof.
  induction 1 as [|b ks Hb Hnd IH]; simpl; [constructor |].
  destruct (negb (Ascii.eqb b a)); [|done].
  constructor; [|done]. rewrite elem_of_filter_neq. tauto.
Qed.

Lemma NoDup_distinct l : NoDup (distinct l).
Proof.
  induction l as [|b l IH]; simpl; constructor.
  - rewrite elem_of_filter_neq. tauto.
  - by apply NoDup_filter_neq.
Qed.

(** Reading one more character extends the distinct characters only if
    it is new. *)
Lemma distinct_snoc c l :
  distinct (l ++ [c]) =
  if decide (c ∈ l) then distinct l else (distinct l ++ [c])%list.
Proof.
  induction l as [|b l IH]; simpl; [done |].
  rewrite IH. destruct (decide (c ∈ l)) as [Hin|Hin].
  - rewrite decide_True by (by right). done.
  - rewrite List.filter_app. simpl.
    destruct (Ascii.eqb_spec c b) as [->|Hne]; simpl.
    + rewrite decide_True by (by left). by rewrite app_nil_r.
    + rewrite decide_False; [done |].
      intros [?|?]%elem_of_cons; done.
Qed.

Lemma get_tabulate g ks c (d : nat) :
  get (map (fun k => (k, g k)) ks) c d =
  if decide (c ∈ ks) then g c else d.
Proof.
  induction ks as [|k ks IH]; simpl; [done |].
  destruct (Ascii.eqb_spec k c) as [->|Hne].
  - rewrite decide_True by (by left). done.
  - rewrite IH. destruct (decide (c ∈ ks)) as [Hin|Hin].
    + rewrite decide_True by (by right). done.
    + rewrite decide_False; [done |].
      intros [?|?]%elem_of_cons; congruence.
Qed.

Lemma set_tabulate_elem g ks c (v : nat) :
  NoDup ks -> c ∈ ks ->
  set (map (fun k => (k, g k)) ks) c v =
  map (fun k => (k, if Ascii.eqb k c then v else g k)) ks.
Proof.
  induction 1 as [|k ks Hk Hnd IH]; simpl.
  - by intros ?%elem_of_nil.
  - intros Hin. destruct (Ascii.eqb_spec k c) as [->|Hne].
    + f_equal. apply map_ext_in. intros b Hb%list_elem_of_In.
      destruct (Ascii.eqb_spec b c); congruence.
    + f_equal. apply IH.
      apply elem_of_cons in Hin as [?|?]; congruence.
Qed.

Lemma set_tabulate_new g ks c (v : nat) :
  c ∉ ks ->
  set (map (fun k => (k, g k)) ks) c v =
  (map (fun k => (k, g k)) ks ++ [(c, v)])%list.
Proof.
  induction ks as [|k ks IH]; simpl; [done |].
  intros [Hne Hn]%not_elem_of_cons.
  destruct (Ascii.eqb_spec k c); [congruence |]. by rewrite IH.
Qed.

Lemma Counter_snoc l c :
  Counter (l ++ [c]) = set (Counter l) c (get (Counter l) c 0 + 1).
Proof. unfold Counter. by rewrite fold_left_app. Qed.

(** The dict [Counter] builds character by character is the frequency
    mapping of the word. *)
Lemma Counter_frequency_mapping l : Counter l = frequency_mapping l.
Proof.
  induction l as [|c l IH] using rev_ind; [done |].
  rewrite Counter_snoc, IH. unfold frequency_mapping.
  rewrite get_tabulate, distinct_snoc.
  destruct (decide (c ∈ l)) as [Hin|Hin].
  - rewrite decide_True by (by apply elem_of_distinct).
    rewrite set_tabulate_elem
      by (apply NoDup_distinct || by apply elem_of_distinct).
    apply map_ext. intros b. rewrite occurrences_snoc.
    destruct (Ascii.eqb_spec b c) as [->|Hne].
    + by rewrite Ascii.eqb_refl.
    + destruct (Ascii.eqb_spec c b); [congruence |]. f_equal; lia.
  - rewrite decide_False by (by rewrite elem_of_distinct).
    rewrite set_tabulate_new by (by rewrite elem_of_distinct).
    rewrite map_app. simpl. f_equal.
    + apply map_ext_in. intros b Hb%list_elem_of_In.
      rewrite elem_of_distinct in Hb. rewrite occurrences_snoc.
      destruct (Ascii.eqb_spec c b); [by subst |]. f_equal; lia.
    + rewrite occurrences_snoc, Ascii.eqb_refl.
      by rewrite (occurrences_not_elem c l).
Qed.

Lemma str_int_not_brace (n : nat) (rest : string) :
  str_int n <> String "{" rest.
Proof. unfold str_int. destruct (Nat.to_uint n); discriminate. Qed.

Example calc_Mississippi :
  calc "Mississippi" = "{'M': 1, 'i': 4, 's': 4, 'p': 2}".
Proof. reflexivity. Qed.

(** C10.  [calc] does not return the number of characters of the word:
    for every word it returns the rendering, as Python prints a dict, of
    the frequency mapping of the word, whose keys are the distinct
    characters of the word (each once), each mapped to its number of
    occurrences (at least one).  The result is never the rendering of a
    number, so never that of the length; it tells "ab" from "cd", two
    words of equal length. *)
Theorem calc_returns_frequency_mapping (word : string) :
  let chars := list_ascii_of_string word in
  calc word = str_dict (frequency_mapping chars) /\
  NoDup (map fst (frequency_mapping chars)) /\
  (forall c, c ∈ map fst (frequency_mapping chars) <-> c ∈ chars) /\
  (forall c n, (c, n) ∈ frequency_mapping chars ->
               n = occurrences c chars /\ 0 < n) /\
  (forall n : nat, calc word <> str_int n) /\
  (String.length "ab" = String.length "cd" /\ calc "ab" <> calc "cd").
Proof.
  intros chars.
  assert (Hkeys : map fst (frequency_mapping chars) = distinct chars).
  { unfold frequency_mapping. rewrite map_map. simpl. apply map_id. }
  split; [|split; [|split; [|split; [|split]]]].
  - unfold calc. fold chars. by rewrite Counter_frequency_mapping.
  - rewrite Hkeys. apply NoDup_distinct.
  - intros c. rewrite Hkeys. apply elem_of_distinct.
  - intros c n Hcn. unfold frequency_mapping in Hcn.
    apply list_elem_of_fmap in Hcn as [b [Heq Hb]].
    injection Heq as -> ->. split; [done |].
    apply occurrences_elem. by apply elem_of_distinct.
  - intros n Heq. symmetry in Heq. revert Heq. unfold calc, str_dict.
    rewrite append_cons. apply str_int_not_brace.
  - split; [reflexivity | discriminate].
Qed.

End Tools01Facts.

(** ** short-term-memory/ : the store *)

Section MemoryStoreFacts.
Import MemoryStore.

Implicit Types (st : Store) (t : string) (c : Conversation).

Lemma load_save_eq st t c : load (save st t c) t = c.
Proof. unfold load, save; simpl. by rewrite lookup_insert_eq. Qed.

Lemma load_save_ne st t t' c :
  t <> t' -> load (save st t c) t' = load st t'.
Proof. intros Hne. unfold load, save; simpl. by rewrite lookup_insert_ne. Qed.

Lemma load_new (b : Backend) t : load (new b) t = [].
Proof. unfold load, new; simpl. by rewrite lookup_empty. Qed.

Lemma load_unseen st t : t ∉ dom (threads st) -> load st t = [].
Proof.
  intros Hn. apply not_elem_of_dom in Hn. unfold load.
  destruct (threads st !! t) eqn:E; [congruence | done].
Qed.

Lemma dom_save st t c :
  dom (threads (save st t c)) = {[t]} ∪ dom (threads st).
Proof. unfold save; simpl. apply dom_insert_L. Qed.

Lemma save_save st t c : save (save st t c) t c = save st t c.
Proof. unfold save; simpl. by rewrite insert_insert_eq. Qed.

Lemma restart_durable st : backend st = Durable -> restart st = st.
Proof. unfold restart. by intros ->. Qed.

Lemma restart_volatile st t :
  backend st = Volatile -> load (restart st) t = [].
Proof. unfold restart. by intros ->. Qed.

(** The three outputs of memory_01.py: each invocation on thread "1"
    hands the loop what the previous one returned, plus the new
    message. *)
Lemma memory_01_outputs (loop : Conversation -> Conversation) :
  let m1 := HumanMessage "Hi! My name is Bob." in
  let m2 := HumanMessage "Can you tell me more above Taiwan!" in
  let m3 :=
    HumanMessage "Can you tell me export and Imports of that country?" in
  let output := loop [m1] in
  let output2 := loop (output ++ [m2])%list in
  let output3 := loop (output2 ++ [m3])%list in
  snd (memory_01 loop) = (output, output2, output3) /\
  load (fst (memory_01 loop)) "1" = output3.
Proof.
  unfold memory_01, agent_invoke; simpl.
  rewrite !load_save_eq, load_new. by split.
Qed.

(** C7.  For every thread identifier, [load] returns the Conversation
    last saved under it, and the empty Conversation when the identifier
    was never seen; saving under another identifier does not change it.
    An invocation on an unseen identifier creates the thread, no
    operation of the store removes one, and the next invocation with the
    same identifier hands the loop the Conversation the previous one
    produced (followed by the new message). *)
Theorem load_returns_accumulated_history
    (loop : Conversation -> Conversation) (b : Backend) (st : Store)
    (t t' : string) (c : Conversation) (m m' : Message) :
  load (save st t c) t = c /\
  load (new b) t = [] /\
  (t ∉ dom (threads st) -> load st t = []) /\
  (t <> t' -> load (save st t c) t' = load st t') /\
  t ∈ dom (threads (agent_invoke loop st t m).1) /\
  dom (threads st) ⊆ dom (threads (save st t c)) /\
  dom (threads st) ⊆ dom (threads (agent_invoke loop st t m).1) /\
  (agent_invoke loop st t m).2 = loop (load st t ++ [m])%list /\
  (agent_invoke loop (agent_invoke loop st t m).1 t m').2
  = loop ((agent_invoke loop st t m).2 ++ [m'])%list.
Proof.
  split; [apply load_save_eq |].
  split; [apply load_new |].
  split; [apply load_unseen |].
  split; [apply load_save_ne |].
  unfold agent_invoke; cbn [fst snd].
  rewrite !dom_save, load_save_eq.
  repeat split; set_solver.
Qed.

(** C8.  Saving the same Conversation twice under a thread identifier
    leaves the store as saving it once does, so every later [load] (of
    that thread or of another, before or after a restart of a durable
    store) returns the same Conversation. *)
Theorem durable_save_idempotent (st : Store) (t t' : string)
    (c : Conversation) :
  save (save st t c) t c = save st t c /\
  load (save (save st t c) t c) t' = load (save st t c) t' /\
  load (save (save st t c) t c) t = c /\
  load (restart (save (save st t c) t c)) t'
  = load (restart (save st t c)) t'.
Proof.
  rewrite save_save. repeat split. apply load_save_eq.
Qed.

End MemoryStoreFacts.

(** ** model_01.py and message_01.py : tool calling *)

Section ToolCallingFacts.
Import Script Model01.

Implicit Types (s : state) (model : Model) (calls : list ToolCall).

Lemma state_eta s :
  {| messages := messages s; round_trips := round_trips s |} = s.
Proof. by destruct s. Qed.

(** The loop of step 2, in one equation. *)
Lemma for_each_answers calls s :
  for_each calls execute_tool_call s =
  (outcome (answers calls).2,
   {| messages := (messages s ++ (answers calls).1)%list;
      round_trips := round_trips s |}).
Proof.
  revert s. induction calls as [|tool_call rest IH]; intros s; simpl.
  - unfold ret. by rewrite app_nil_r, state_eta.
  - unfold bind, execute_tool_call.
    destruct (String.eqb (tc_name tool_call) "get_weather"); [|apply IH].
    unfold bind, lift.
    destruct (tool_invoke get_weather tool_call) as [tool_result|e]; simpl.
    + rewrite IH; simpl. by rewrite <- app_assoc.
    + by rewrite app_nil_r, state_eta.
Qed.

(** The whole script, in one equation. *)
Lemma tool_calling_example_run model s :
  tool_calling_example model s =
  let n := length (round_trips s) in
  match model n question with
  | Raise e =>
      (Raise e, {| messages := question;
                   round_trips := (round_trips s ++ [question])%list |})
  | Ok ai_msg =>
      let conv := (question ++ [AI ai_msg]
                   ++ (answers (tool_calls ai_msg)).1)%list in
      match (answers (tool_calls ai_msg)).2 with
      | Some e =>
          (Raise e, {| messages := conv;
                       round_trips := (round_trips s ++ [question])%list |})
      | None =>
          (match model (S n) conv with
           | Ok final_resp => Ok (ai_content final_resp)
           | Raise e => Raise e
           end,
           {| messages := conv;
              round_trips := (round_trips s ++ [question; conv])%list |})
      end
  end.
Proof.
  unfold tool_calling_example, step1, step2, step3, bind, assign, read,
    invoke, append, ret; simpl.
  destruct (model (length (round_trips s)) question) as [ai_msg|e];
    [|done].
  rewrite for_each_answers; simpl.
  destruct (answers (tool_calls ai_msg)).2 as [e|]; simpl; [done |].
  rewrite length_app; simpl. rewrite Nat.add_1_r, <- app_assoc. simpl.
  by destruct (model _ _).
Qed.

(** *** What [tool.invoke] returns *)

Lemma tool_invoke_ok (t : StructuredTool) (tool_call : ToolCall)
    (m : Message) :
  tool_invoke t tool_call = Ok m ->
  exists value, m = ToolMessage value (tc_id tool_call) (name t).
Proof.
  unfold tool_invoke. destruct (func t _) as [value|e]; [|done].
  intros [= <-]. by exists value.
Qed.

Lemma get_weather_raises (tool_call : ToolCall) (e : exn) :
  tool_invoke get_weather tool_call = Raise e -> e = ValidationError.
Proof.
  unfold tool_invoke; simpl.
  destruct (dict_get "location" (tc_args tool_call)) as [[location|z]|];
    by intros [= <-].
Qed.

(** The messages step 2 appends answer, one for one and in order, the
    [get_weather] calls it executed: all of them, or those before the
    first one that fails. *)
Lemma answers_spec calls :
  let executed := List.filter
    (fun tool_call => String.eqb (tc_name tool_call) "get_weather") calls in
  match (answers calls).2 with
  | None =>
      Forall2 (fun tool_call m => tool_invoke get_weather tool_call = Ok m)
              executed (answers calls).1
  | Some e =>
      exists before failing after,
        executed = (before ++ failing :: after)%list /\
        Forall2 (fun tool_call m => tool_invoke get_weather tool_call = Ok m)
                before (answers calls).1 /\
        tool_invoke get_weather failing = Raise e
  end.
Proof.
  induction calls as [|tool_call rest IH]; simpl; [constructor |].
  destruct (String.eqb (tc_name tool_call) "get_weather"); [|apply IH].
  destruct (tool_invoke get_weather tool_call) as [m|e] eqn:E; simpl.
  - simpl in IH. destruct (answers rest).2 as [e|].
    + destruct IH as (before & failing & after & Heq & Hall & Hfail).
      exists (tool_call :: before), failing, after.
      rewrite Heq. split; [done |]. split; [by constructor | done].
    + by constructor.
  - exists [], tool_call, (List.filter
      (fun tool_call => String.eqb (tc_name tool_call) "get_weather") rest).
    split; [done |]. split; [constructor | done].
Qed.

Lemma answers_from_requests calls :
  Forall (fun m => exists tool_call value,
            tool_call ∈ calls /\
            tc_name tool_call = "get_weather" /\
            m = ToolMessage value (tc_id tool_call) "get_weather")
         (answers calls).1.
Proof.
  induction calls as [|tool_call rest IH]; simpl; [constructor |].
  assert (Hrest : Forall (fun m => exists tc value,
            tc ∈ tool_call :: rest /\
            tc_name tc = "get_weather" /\
            m = ToolMessage value (tc_id tc) "get_weather")
         (answers rest).1).
  { eapply Forall_impl; [exact IH |]. intros m (tc & value & Hin & Hn & ->).
    exists tc, value. split; [by right | done]. }
  destruct (String.eqb_spec (tc_name tool_call) "get_weather") as [Hn|Hn];
    [|done].
  destruct (tool_invoke get_weather tool_call) as [m|e] eqn:E; simpl;
    [|constructor].
  constructor; [|done].
  apply tool_invoke_ok in E as [value ->].
  exists tool_call, value. split; [by left | done].
Qed.

(** *** Appending *)

Lemma grows_app s s' (added : Conversation) :
  messages s' = (messages s ++ added)%list -> grows s s'.
Proof.
  intros Heq. unfold grows. rewrite Heq. split.
  - rewrite length_app. lia.
  - intros i m Hi. by apply lookup_app_l_Some.
Qed.

Lemma step1_messages model s :
  exists added,
    messages (step1 model s).2 = (messages s ++ added)%list.
Proof.
  unfold step1, bind, read, invoke, append, ret; simpl.
  destruct (model _ _) as [ai_msg|e]; simpl.
  - by exists [AI ai_msg].
  - exists []. by rewrite app_nil_r.
Qed.

Lemma execute_tool_call_messages (tool_call : ToolCall) s :
  exists added,
    messages (execute_tool_call tool_call s).2 = (messages s ++ added)%list /\
    Forall (fun m => exists value,
              m = ToolMessage value (tc_id tool_call) "get_weather") added.
Proof.
  unfold execute_tool_call, bind, lift, append, ret.
  destruct (String.eqb (tc_name tool_call) "get_weather"); simpl.
  - destruct (tool_invoke get_weather tool_call) as [m|e] eqn:E; simpl.
    + exists [m]. split; [done |]. constructor; [|constructor].
      by apply tool_invoke_ok in E.
    + exists []. by rewrite app_nil_r.
  - exists []. by rewrite app_nil_r.
Qed.

Lemma step3_messages model s :
  messages (step3 model s).2 = messages s.
Proof.
  unfold step3, bind, read, invoke, ret; simpl.
  by destruct (model _ _).
Qed.

Lemma tool_calling_example_messages model s :
  exists added,
    messages (tool_calling_example model s).2 = (question ++ added)%list /\
    forall ai_msg, model (length (round_trips s)) question = Ok ai_msg ->
      added = (AI ai_msg :: (answers (tool_calls ai_msg)).1)%list.
Proof.
  rewrite tool_calling_example_run; simpl.
  destruct (model _ _) as [ai_msg|e]; simpl.
  - exists (AI ai_msg :: (answers (tool_calls ai_msg)).1).
    split; [|by intros ? [= <-]].
    by destruct (answers (tool_calls ai_msg)).2.
  - exists []. split; [done | by intros ? [=]].
Qed.

(** C4.  The script changes its message list by appending only: after
    step 1, after each iteration of the loop of step 2, after the whole of
    step 2, after step 3, and from the initial conversation to the end of
    the run, the list is no shorter and every message it held is still
    there, unchanged, at the same position. *)
Theorem conversation_only_appended model s (tool_call : ToolCall)
    (ai_msg : AIMessage) :
  grows s (step1 model s).2 /\
  grows s (execute_tool_call tool_call s).2 /\
  grows s (step2 ai_msg s).2 /\
  grows s (step3 model s).2 /\
  grows (assign question s).2 (tool_calling_example model s).2.
Proof.
  split; [|split; [|split; [|split]]].
  - destruct (step1_messages model s) as [added Heq].
    by apply grows_app with added.
  - destruct (execute_tool_call_messages tool_call s) as (added & Heq & _).
    by apply grows_app with added.
  - unfold step2. rewrite for_each_answers; simpl.
    by apply grows_app with (answers (tool_calls ai_msg)).1.
  - apply grows_app with []. by rewrite step3_messages, app_nil_r.
  - destruct (tool_calling_example_messages model s) as (added & Heq & _).
    by apply grows_app with added.
Qed.

(** *** Pairing of tool messages with requests *)

Lemma requests_elem (ai_msg : AIMessage) (tool_call : ToolCall) :
  tool_call ∈ tool_calls ai_msg -> requests ai_msg (tc_id tool_call) = true.
Proof.
  intros Hin. unfold requests. apply existsb_exists.
  exists tool_call. split; [by apply list_elem_of_In | apply String.eqb_refl].
Qed.

Lemma paired_block (ai_msg : AIMessage) (block : Conversation) :
  Forall (fun m => exists value id tool,
            m = ToolMessage value id tool /\ requests ai_msg id = true) block ->
  paired_from (Some ai_msg) block = true.
Proof.
  induction 1 as [|m block (value & id & tool & -> & Hreq) _ IH]; simpl;
    [done |].
  by rewrite Hreq, IH.
Qed.

Lemma answers_paired (ai_msg : AIMessage) :
  paired_from (Some ai_msg) (answers (tool_calls ai_msg)).1 = true.
Proof.
  apply paired_block.
  eapply Forall_impl; [apply answers_from_requests |].
  intros m (tool_call & value & Hin & _ & ->).
  exists value, (tc_id tool_call), "get_weather".
  split; [done | by apply requests_elem].
Qed.

(** With two requests of which only the second is for [get_weather], the
    one tool message carries the id of the second request. *)
Example answer_carries_call_id :
  messages (tool_calling_example Stubs.unknown_tool init).2 =
  (question ++
   [AI (mkAI "" [mkToolCall "get_time" [("zone", JStr "IST")] "call_1";
                 Stubs.mumbai "call_2"]);
    ToolMessage ("It's sunny in Mumbai with 27" ++ degree ++ "C.")
                "call_2" "get_weather"])%list.
Proof. reflexivity. Qed.

(** C3.  In every conversation the scripts produce (whatever the model
    answers, and also when the run ends by an exception) each tool message
    follows an assistant message, with only tool messages in between, and
    its tool-call id is the id of one of that assistant message's requests.
    The message appended for a requested call carries the id of that very
    call. *)
Theorem tool_messages_answer_requests model s (str : Message -> string)
    (tool_call : ToolCall) :
  well_paired (messages (tool_calling_example model s).2) = true /\
  match (Message01.tool_calling_full_cycle str model s).1 with
  | Ok (Some (final_messages, _)) => well_paired final_messages = true
  | _ => True
  end /\
  exists added,
    messages (execute_tool_call tool_call s).2 = (messages s ++ added)%list /\
    Forall (fun m => exists value,
              m = ToolMessage value (tc_id tool_call) "get_weather") added.
Proof.
  split; [|split; [|apply execute_tool_call_messages]].
  - rewrite tool_calling_example_run; simpl.
    destruct (model _ _) as [ai_msg|e]; [|done].
    assert (Hconv : well_paired
              (question ++ [AI ai_msg] ++ (answers (tool_calls ai_msg)).1)%list
            = true) by apply answers_paired.
    by destruct (answers (tool_calls ai_msg)).2.
  - unfold Message01.tool_calling_full_cycle, bind, invoke, lift, ret; simpl.
    destruct (model _ _) as [ai_msg|e]; [|done].
    destruct (tool_calls ai_msg) as [|tool_call_data rest] eqn:Hcalls;
      [done |].
    destruct (tool_invoke Message01.get_weather tool_call_data); [|done].
    simpl. destruct (model _ _); simpl; [|done].
    unfold well_paired; simpl. unfold requests. rewrite Hcalls; simpl.
    by rewrite String.eqb_refl.
Qed.

(** *** Calls that are not for [get_weather], and calls that fail *)

Lemma answers_executed calls :
  let executed := List.filter
    (fun tool_call => String.eqb (tc_name tool_call) "get_weather") calls in
  let answer := fun (tool_call : ToolCall) (m : Message) =>
    tool_invoke get_weather tool_call = Ok m /\
    exists value, m = ToolMessage value (tc_id tool_call) "get_weather" in
  match (answers calls).2 with
  | None => Forall2 answer executed (answers calls).1
  | Some e =>
      e = ValidationError /\
      exists before failing after,
        executed = (before ++ failing :: after)%list /\
        Forall2 answer before (answers calls).1 /\
        tool_invoke get_weather failing = Raise ValidationError
  end.
Proof.
  intros executed answer.
  assert (Himpl : forall l ms,
    Forall2 (fun tool_call m => tool_invoke get_weather tool_call = Ok m) l ms
    -> Forall2 answer l ms).
  { intros l ms Hall. eapply Forall2_impl; [exact Hall |].
    intros tool_call m Hm. split; [done | by apply tool_invoke_ok in Hm]. }
  pose proof (answers_spec calls) as Hspec. simpl in Hspec.
  destruct (answers calls).2 as [e|]; [|by apply Himpl].
  destruct Hspec as (before & failing & after & Heq & Hall & Hfail).
  pose proof (get_weather_raises _ _ Hfail) as ->.
  split; [done |]. exists before, failing, after. by auto.
Qed.

Lemma answered_app (id : string) (l1 l2 : Conversation) :
  answered id (l1 ++ l2)%list = answered id l1 || answered id l2.
Proof. apply existsb_app. Qed.

(** An unbound tool is requested (call_1) before the weather (call_2):
    the run ends normally after the model was invoked again, on a
    conversation that holds no tool message for call_1.  The weather is
    requested with a wrong argument: the run ends by the exception. *)
Lemma unknown_tool_call_dropped :
  let r := tool_calling_example Stubs.unknown_tool init in
  is_ok r.1 = true /\
  length (round_trips r.2) = 2 /\
  last (round_trips r.2) = Some (messages r.2) /\
  answered "call_1" (messages r.2) = false /\
  (tool_calling_example Stubs.wrong_argument init).1 = Raise ValidationError.
Proof. vm_compute. by repeat split. Qed.

(** C1 (amended).  When the first response is [ai_msg], step 2 appends,
    in request order, one tool message for each requested call named
    get_weather, carrying that call's id, and the model is then invoked
    again on the conversation so extended; a requested call with another
    name is skipped: no tool message carries its id (unless a get_weather
    call shares it).  If the execution of a get_weather call fails, the
    run ends by that exception, after the answers to the calls before it
    were appended, and the model is not invoked again. *)
Theorem requested_calls_answered_or_skipped model s (ai_msg : AIMessage) :
  model (length (round_trips s)) question = Ok ai_msg ->
  let r := tool_calling_example model s in
  let answer := fun (tool_call : ToolCall) (m : Message) =>
    tool_invoke get_weather tool_call = Ok m /\
    exists value, m = ToolMessage value (tc_id tool_call) "get_weather" in
  exists added,
    messages r.2 = (question ++ [AI ai_msg] ++ added)%list /\
    ((Forall2 answer (weather_calls ai_msg) added /\
      round_trips r.2 = (round_trips s ++ [question; messages r.2])%list)
     \/
     (exists before failing after,
        weather_calls ai_msg = (before ++ failing :: after)%list /\
        Forall2 answer before added /\
        tool_invoke get_weather failing = Raise ValidationError /\
        r.1 = Raise ValidationError /\
        round_trips r.2 = (round_trips s ++ [question])%list)) /\
    (forall skipped : ToolCall,
        skipped ∈ tool_calls ai_msg ->
        tc_name skipped <> "get_weather" ->
        (forall tool_call, tool_call ∈ tool_calls ai_msg ->
           tc_name tool_call = "get_weather" ->
           tc_id tool_call <> tc_id skipped) ->
        answered (tc_id skipped) (messages r.2) = false).
Proof.
  intros Hfirst r answer. subst r.
  rewrite tool_calling_example_run; simpl. rewrite Hfirst.
  exists (answers (tool_calls ai_msg)).1.
  pose proof (answers_executed (tool_calls ai_msg)) as Hex. simpl in Hex.
  fold answer in Hex. fold (weather_calls ai_msg) in Hex.
  assert (Hskip : forall skipped : ToolCall,
    (forall tool_call, tool_call ∈ tool_calls ai_msg ->
       tc_name tool_call = "get_weather" ->
       tc_id tool_call <> tc_id skipped) ->
    answered (tc_id skipped)
      (question ++ [AI ai_msg] ++ (answers (tool_calls ai_msg)).1)%list
    = false).
  { intros skipped Hids. rewrite !answered_app. simpl.
    destruct (answered _ (answers _).1) eqn:E; [|done].
    apply existsb_exists in E as (m & Hin & Hm).
    pose proof (answers_from_requests (tool_calls ai_msg)) as Hfrom.
    rewrite Forall_forall in Hfrom.
    apply list_elem_of_In, Hfrom in Hin as (tc & value & Htc & Hname & ->).
    apply String.eqb_eq in Hm. by destruct (Hids tc Htc Hname). }
  destruct (answers (tool_calls ai_msg)).2 as [e|]; simpl.
  - destruct Hex as (-> & before & failing & after & Heq & Hall & Hfail).
    split; [done |]. split; [|by intros; apply Hskip].
    right. exists before, failing, after. by auto.
  - split; [done |]. split; [by left | by intros; apply Hskip].
Qed.

Lemma requested_calls_answered_or_skipped_witness :
  exists added,
    messages (tool_calling_example Stubs.unknown_tool init).2
    = (question
       ++ [AI (mkAI "" [mkToolCall "get_time" [("zone", JStr "IST")] "call_1";
                        Stubs.mumbai "call_2"])]
       ++ added)%list.
Proof.
  destruct (requested_calls_answered_or_skipped Stubs.unknown_tool init
              (mkAI "" [mkToolCall "get_time" [("zone", JStr "IST")] "call_1";
                        Stubs.mumbai "call_2"]) eq_refl)
    as (added & Heq & _).
  exists added. exact Heq.
Defined.

(** *** Round-trips *)

(** The model answers in plain text, without any tool call: the script
    still invokes it a second time. *)
Lemma plain_answer_two_round_trips :
  let first := mkAI "It is sunny in Mumbai." [] in
  let r := tool_calling_example Stubs.plain_answer init in
  Stubs.plain_answer 0 question = Ok first /\
  tool_calls first = [] /\
  round_trips r.2 = [question; (question ++ [AI first])%list] /\
  length (round_trips r.2) <> 1.
Proof. vm_compute. by repeat split. Qed.

(** C2 (amended).  If the model's first response carries no tool call,
    [tool_calling_example] appends that response, appends no tool message,
    and invokes the model once more, on the user message followed by the
    response: two round-trips, the value being the content of the second
    response.  In the same case the full-cycle block of message_01.py
    stops after its single round-trip, leaving no conversation. *)
Theorem no_tool_call_round_trips model s (str : Message -> string)
    (ai_msg : AIMessage) :
  tool_calls ai_msg = [] ->
  let n := length (round_trips s) in
  (model n question = Ok ai_msg ->
   let r := tool_calling_example model s in
   messages r.2 = (question ++ [AI ai_msg])%list /\
   round_trips r.2
   = (round_trips s ++ [question; (question ++ [AI ai_msg])%list])%list /\
   r.1 = match model (S n) (question ++ [AI ai_msg])%list with
         | Ok final_resp => Ok (ai_content final_resp)
         | Raise e => Raise e
         end) /\
  (model n [HumanMessage Message01.query] = Ok ai_msg ->
   Message01.tool_calling_full_cycle str model s =
   (Ok None,
    {| messages := messages s;
       round_trips :=
         (round_trips s ++ [[HumanMessage Message01.query]])%list |})).
Proof.
  intros Hnone n. split.
  - intros Hfirst. simpl. rewrite tool_calling_example_run; simpl.
    fold n. rewrite Hfirst, Hnone. simpl. by destruct (model _ _).
  - intros Hfirst.
    unfold Message01.tool_calling_full_cycle, bind, invoke, ret; simpl.
    fold n. by rewrite Hfirst, Hnone.
Qed.

Lemma no_tool_call_round_trips_witness :
  round_trips (tool_calling_example Stubs.plain_answer init).2 =
  [question; (question ++ [AI (mkAI "It is sunny in Mumbai." [])])%list]
  /\
  (Message01.tool_calling_full_cycle Stubs.str_content
     Stubs.plain_answer init).1 = Ok None.
Proof.
  destruct (no_tool_call_round_trips Stubs.plain_answer init
              Stubs.str_content (mkAI "It is sunny in Mumbai." []) eq_refl)
    as [Hexample Hcycle].
  destruct (Hexample eq_refl) as (_ & Htrips & _).
  split; [exact Htrips |].
  exact (f_equal fst (Hcycle eq_refl)).
Defined.

(** The model requests the weather on every response: the script ends
    normally, with the content of the second response, after two
    round-trips; nothing reports that a ceiling was exceeded. *)
Lemma always_requests_two_round_trips :
  let r := tool_calling_example Stubs.always_requests init in
  (forall (n : nat) (conv : Conversation),
      exists ai_msg, Stubs.always_requests n conv = Ok ai_msg /\
                     tool_calls ai_msg <> []) /\
  r.1 = Ok "Let me check." /\
  length (round_trips r.2) = 2 /\
  length (round_trips r.2) <> 10.
Proof.
  split.
  - intros n conv. eexists. split; [reflexivity | discriminate].
  - vm_compute. by repeat split.
Qed.


End ToolCallingFacts.

(** ** agent_00.py and message_01.py : streaming *)

Section StreamingFacts.
Import Streaming.

Lemma fold_left_append (chunks : list AIMessageChunk) (acc : string) :
  fold_left (fun acc chunk => acc ++ chunk_content chunk) chunks acc =
  acc ++ String.concat "" (map chunk_content chunks).
Proof.
  revert acc. induction chunks as [|chunk rest IH]; intros acc.
  - simpl. induction acc as [|a acc IHacc]; [done |].
    by rewrite append_cons, <- IHacc.
  - cbn [fold_left map]. rewrite IH.
    assert (Hconcat :
      String.concat "" (chunk_content chunk :: map chunk_content rest)
      = chunk_content chunk ++ String.concat "" (map chunk_content rest)).
    { destruct rest as [|chunk' rest]; simpl.
      - induction (chunk_content chunk) as [|a c IHc]; [done |].
        by rewrite append_cons, <- IHc.
      - done. }
    rewrite Hconcat. clear.
    induction acc as [|a acc IHacc]; [done |].
    by rewrite !append_cons, IHacc.
Qed.

(** X1.  The accumulation loop of message_01.py leaves in [full_text] the
    fragments of the stream, concatenated in the order they arrived. *)
Lemma full_text_concat (chunks : list AIMessageChunk) :
  full_text chunks = String.concat "" (map chunk_content chunks).
Proof. unfold full_text. by rewrite fold_left_append. Qed.

(** [explain_like_5] yields one fragment per chunk of the stream, in the
    order of the stream. *)
Lemma explain_like_5_length
    (llm_stream : Conversation -> list AIMessageChunk) (topic : string) :
  length (explain_like_5 llm_stream topic) =
  length (llm_stream
            [HumanMessage
               ("Explain the following topic like I'm 5 years old: "
                ++ topic)]).
Proof. unfold explain_like_5. by rewrite length_map. Qed.

End StreamingFacts.

(** ** tools_01.py : more on [calc]'s mapping *)

Section CounterTotals.
Import Tools01.

(** The counts of a dict, added up. *)
Lemma total_set (d : Dict) (c : ascii) :
  sum_list (map snd (set d c (get d c 0 + 1))) = S (sum_list (map snd d)).
Proof.
  induction d as [|[k v] d IH]; simpl; [done |].
  destruct (Ascii.eqb k c); simpl; [lia | rewrite IH; lia].
Qed.

Lemma length_set (d : Dict) (c : ascii) (v : nat) :
  length d <= length (set d c v) <= S (length d).
Proof.
  induction d as [|[k v'] d IH]; simpl; [lia |].
  destruct (Ascii.eqb k c); simpl; lia.
Qed.

Lemma length_list_ascii (word : string) :
  length (list_ascii_of_string word) = String.length word.
Proof. induction word as [|a word IH]; simpl; [done | by rewrite IH]. Qed.

(** X2.  The counts [calc] reports add up to the number of characters of the
    word, and the mapping has at most as many entries as the word has
    characters. *)
Theorem Counter_counts_add_up (word : string) :
  let mapping := Counter (list_ascii_of_string word) in
  sum_list (map snd mapping) = String.length word /\
  length mapping <= String.length word.
Proof.
  simpl. rewrite <- length_list_ascii.
  induction (list_ascii_of_string word) as [|c l IH] using rev_ind;
    [by split |].
  rewrite Counter_snoc, total_set, length_app. simpl.
  pose proof (length_set (Counter l) c (get (Counter l) c 0 + 1)).
  destruct IH as [-> Hlen]. split; lia.
Qed.

End CounterTotals.

(** ** tools_01.py : the weather tool *)

Section WeatherToolFacts.
Import Script WeatherTool.

Variable upper : string -> string.

(** X3.  Called through its schema with a string for the city, the tool
    answers 25 degrees with the letter C when the units are absent or
    "celsius", and 77 degrees with the letter F when they are
    "fahrenheit", for the city it was given.  Any other arguments (no
    string for the city, or units that are neither literal) are refused by
    a validation error.  Nothing else is returned or raised. *)
Theorem weather_tool_reports (args : list (string * Json)) :
  upper "celsius" = "CELSIUS" ->
  upper "fahrenheit" = "FAHRENHEIT" ->
  (forall city, dict_get "city" args = Some (JStr city) ->
     ((dict_get "units" args = None \/
       dict_get "units" args = Some (JStr "celsius")) ->
      func (weather_tool upper) args
      = Ok ("Weather in " ++ city ++ ": Sunny, 25" ++ degree ++ "C")) /\
     (dict_get "units" args = Some (JStr "fahrenheit") ->
      func (weather_tool upper) args
      = Ok ("Weather in " ++ city ++ ": Sunny, 77" ++ degree ++ "F"))) /\
  ((forall city, dict_get "city" args <> Some (JStr city)) \/
   (exists units, dict_get "units" args = Some units /\
                  units <> JStr "celsius" /\ units <> JStr "fahrenheit") ->
   func (weather_tool upper) args = Raise ValidationError) /\
  match func (weather_tool upper) args with
  | Ok value =>
      exists city, dict_get "city" args = Some (JStr city) /\
        ((dict_get "units" args = None \/
          dict_get "units" args = Some (JStr "celsius")) /\
         value = "Weather in " ++ city ++ ": Sunny, 25" ++ degree ++ "C"
         \/
         dict_get "units" args = Some (JStr "fahrenheit") /\
         value = "Weather in " ++ city ++ ": Sunny, 77" ++ degree ++ "F")
  | Raise e => e = ValidationError
  end.
Proof.
  intros Hc Hf.
  assert (Hcelsius : forall city,
    get_weather upper city "celsius"
    = Ok ("Weather in " ++ city ++ ": Sunny, 25" ++ degree ++ "C")).
  { intros city. unfold get_weather. by rewrite Hc. }
  assert (Hfahrenheit : forall city,
    get_weather upper city "fahrenheit"
    = Ok ("Weather in " ++ city ++ ": Sunny, 77" ++ degree ++ "F")).
  { intros city. unfold get_weather. by rewrite Hf. }
  unfold weather_tool, WeatherInput; cbn [func].
  split; [|split].
  - intros city ->. split.
    + intros [->| ->]; [done |]. simpl. apply Hcelsius.
    + intros ->. simpl. apply Hfahrenheit.
  - intros [Hcity|(units & -> & Hnc & Hnf)].
    + destruct (dict_get "city" args) as [[city|z]|]; [|done|done].
      by destruct (Hcity city).
    + destruct (dict_get "city" args) as [[city|z]|]; [|done|done].
      destruct units as [units|z]; [|done].
      destruct (String.eqb_spec units "celsius") as [->|_]; [done |].
      by destruct (String.eqb_spec units "fahrenheit") as [->|_].
  - destruct (dict_get "city" args) as [[city|z]|]; [|done|done].
    destruct (dict_get "units" args) as [[units|z]|]; [|done|].
    + destruct (String.eqb_spec units "celsius") as [->|Hnc]; simpl.
      * rewrite Hcelsius. exists city. split; [done |].
        left. by split; [right |].
      * destruct (String.eqb_spec units "fahrenheit") as [->|Hnf]; [|done].
        rewrite Hfahrenheit. exists city. split; [done |]. right. by split.
    + rewrite Hcelsius. exists city. split; [done |].
      left. by split; [left |].
Qed.

(** Called directly, the function compares [units] with "celsius"
    exactly: for any other spelling it reports 77 degrees, followed by the
    first letter of the uppercased units, and it raises [IndexError] when
    that string is empty. *)
Theorem get_weather_other_units (city units : string) :
  units <> "celsius" ->
  match upper units with
  | EmptyString => get_weather upper city units = Raise IndexError
  | String letter _ =>
      get_weather upper city units =
      Ok ("Weather in " ++ city ++ ": Sunny, 77" ++ degree
          ++ String letter EmptyString)
  end.
Proof.
  intros Hne. unfold get_weather.
  destruct (String.eqb_spec units "celsius"); [done |].
  by destruct (upper units).
Qed.

End WeatherToolFacts.

Lemma weather_tool_reports_witness :
  Script.func (WeatherTool.weather_tool WeatherTool.ascii_upper)
    [("city", JStr "Tokyo"); ("units", JStr "fahrenheit")]
  = Ok ("Weather in Tokyo: Sunny, 77" ++ Script.degree ++ "F").
Proof.
  exact (proj2 (proj1 (weather_tool_reports WeatherTool.ascii_upper
                         [("city", JStr "Tokyo");
                          ("units", JStr "fahrenheit")]
                         eq_refl eq_refl)
                 "Tokyo" eq_refl) eq_refl).
Defined.

Lemma get_weather_other_units_witness :
  WeatherTool.get_weather WeatherTool.ascii_upper "Tokyo" "Celsius" =
  Ok ("Weather in Tokyo: Sunny, 77" ++ Script.degree ++ "C").
Proof.
  exact (get_weather_other_units WeatherTool.ascii_upper "Tokyo" "Celsius"
           ltac:(discriminate)).
Defined.

(** ** message_01.py : which call the full cycle executes *)

Section FullCycleFacts.
Import Script Message01.

Implicit Types (s : state) (model : Model).

(** X4.  When the model requests calls, the block executes the first one only,
    with [get_weather] whatever tool the call names, and sends back the
    query, the response and one tool message: it carries the id and the
    name of the first request, and its content is the rendering of the
    message [get_weather.invoke] returned.  The other requests are left
    unanswered; the script's message list is not touched. *)
Theorem full_cycle_first_call_only model s (str : Message -> string)
    (ai_msg : AIMessage) (first : ToolCall) (others : list ToolCall)
    (location : string) :
  model (length (round_trips s)) [HumanMessage query] = Ok ai_msg ->
  tool_calls ai_msg = first :: others ->
  dict_get "location" (tc_args first) = Some (JStr location) ->
  let tool_result :=
    ToolMessage ("Sunny, 25" ++ degree ++ "C in " ++ location)
                (tc_id first) "get_weather" in
  let final_messages :=
    [HumanMessage query; AI ai_msg;
     ToolMessage (str tool_result) (tc_id first) (tc_name first)] in
  let r := tool_calling_full_cycle str model s in
  round_trips r.2
  = (round_trips s ++ [[HumanMessage query]; final_messages])%list /\
  messages r.2 = messages s /\
  r.1 = match model (S (length (round_trips s))) final_messages with
        | Ok final_response =>
            Ok (Some (final_messages, ai_content final_response))
        | Raise e => Raise e
        end.
Proof.
  intros Hfirst Hcalls Hloc. simpl.
  unfold tool_calling_full_cycle, bind, invoke, lift, ret, tool_invoke; simpl.
  rewrite Hfirst, Hcalls. simpl. rewrite Hloc. simpl.
  rewrite length_app, Nat.add_1_r, <- app_assoc. simpl.
  destruct (model (S (length (round_trips s))) _); simpl; by repeat split.
Qed.

(** X5.  When the first requested call has no string argument "location", the
    block ends by a validation error right after its first round-trip,
    whatever the other requests are. *)
Theorem full_cycle_first_call_invalid model s (str : Message -> string)
    (ai_msg : AIMessage) (first : ToolCall) (others : list ToolCall) :
  model (length (round_trips s)) [HumanMessage query] = Ok ai_msg ->
  tool_calls ai_msg = first :: others ->
  (forall location,
      dict_get "location" (tc_args first) <> Some (JStr location)) ->
  tool_calling_full_cycle str model s =
  (Raise ValidationError,
   {| messages := messages s;
      round_trips := (round_trips s ++ [[HumanMessage query]])%list |}).
Proof.
  intros Hfirst Hcalls Hloc.
  unfold tool_calling_full_cycle, bind, invoke, lift, ret, tool_invoke; simpl.
  rewrite Hfirst, Hcalls. simpl.
  destruct (dict_get "location" (tc_args first)) as [[location|z]|];
    [by destruct (Hloc location) | done | done].
Qed.

End FullCycleFacts.

Lemma full_cycle_first_call_only_witness :
  Script.round_trips
    (Message01.tool_calling_full_cycle Stubs.str_content
       Stubs.always_requests Script.init).2
  = [[HumanMessage Message01.query];
     [HumanMessage Message01.query;
      AI (mkAI "Let me check." [Stubs.mumbai "call_1"]);
      ToolMessage ("Sunny, 25" ++ Script.degree ++ "C in Mumbai")
                  "call_1" "get_weather"]].
Proof.
  exact (proj1 (full_cycle_first_call_only Stubs.always_requests Script.init
                  Stubs.str_content
                  (mkAI "Let me check." [Stubs.mumbai "call_1"])
                  (Stubs.mumbai "call_1") [] "Mumbai"
                  eq_refl eq_refl eq_refl)).
Defined.

Lemma full_cycle_first_call_invalid_witness :
  Message01.tool_calling_full_cycle Stubs.str_content Stubs.unknown_tool
    Script.init
  = (Raise ValidationError,
     {| Script.messages := [];
        Script.round_trips := [[HumanMessage Message01.query]] |}).
Proof.
  apply (full_cycle_first_call_invalid Stubs.unknown_tool Script.init
           Stubs.str_content
           (mkAI "" [mkToolCall "get_time" [("zone", JStr "IST")] "call_1";
                     Stubs.mumbai "call_2"])
           (mkToolCall "get_time" [("zone", JStr "IST")] "call_1")
           [Stubs.mumbai "call_2"]).
  - reflexivity.
  - reflexivity.
  - intros location. simpl. discriminate.
Defined.

(** ** agent_01.py : the prompt and the router together *)

Section RouterChainFacts.
Import Router RouterChain.

Lemma ascii_lower_app (a b : string) :
  ascii_lower (a ++ b) = ascii_lower a ++ ascii_lower b.
Proof.
  induction a as [|c a IH]; [done |].
  rewrite !append_cons. simpl. by rewrite IH, append_cons.
Qed.

(** X6.  The words of the template never select the complex model by
    themselves, and no match can start inside the template: when
    lowercasing acts on the template and on the input separately, the
    chain selects the complex model exactly when the lowercased user input
    contains "search" or "trending". *)
Theorem chain_route_depends_on_input (lower : string -> string)
    (user_input : string) :
  lower (template ++ user_input)
  = "answer the following question concisely: " ++ lower user_input ->
  chain_route lower user_input =
  Ok (if contains "search" (lower user_input)
         || contains "trending" (lower user_input)
      then complex_model else simple_model).
Proof.
  intros Hlower. unfold chain_route, prompt, route_model. simpl.
  rewrite Hlower. cbv [append]. simpl.
  by destruct (contains "search" (lower user_input)
               || contains "trending" (lower user_input)).
Qed.

End RouterChainFacts.

Lemma chain_route_depends_on_input_witness :
  RouterChain.chain_route ascii_lower
    "Search, what is trending in education sector nowadays?"
  = Ok Router.complex_model.
Proof.
  exact (chain_route_depends_on_input ascii_lower
           "Search, what is trending in education sector nowadays?"
           eq_refl).
Defined.

(** ** tools_02.py : facts kept in the store *)

Section Tools02Facts.
Import Tools02.

Context {S : Type} `{BaseStoreOk S}.

Implicit Types (store : S) (config : RunnableConfig) (user : UserContext).

(** What a call of [save_user_fact] under a user context does. *)
Lemma save_under_context (fact : string) config store user :
  configurable config = Some (Some user) ->
  save_user_fact fact config store =
  if valid_namespace ["facts"; user_id user]
  then (Returns "Fact saved successfully.",
        write store ["facts"; user_id user] "latest_fact" [("text", fact)])
  else (InvalidNamespaceError, store).
Proof.
  intros Hctx. unfold save_user_fact, put. rewrite Hctx.
  by destruct (valid_namespace _).
Qed.

(** X7.  When the store accepts the user's namespace, saving a fact
    succeeds and recalling under the same context returns that fact,
    whatever the store held before.  When the store refuses the namespace
    (an empty user id, or one with a period), saving raises
    [InvalidNamespaceError] and leaves the store as it was. *)
Theorem recall_after_save (fact : string) config store user :
  configurable config = Some (Some user) ->
  if valid_namespace ["facts"; user_id user]
  then (save_user_fact fact config store).1
       = Returns "Fact saved successfully." /\
       recall_user_fact config (save_user_fact fact config store).2
       = Returns ("Recall: " ++ fact)
  else save_user_fact fact config store = (InvalidNamespaceError, store).
Proof.
  intros Hctx. rewrite (save_under_context _ _ _ _ Hctx).
  destruct (valid_namespace _); [|done]. simpl. split; [done |].
  unfold recall_user_fact. rewrite Hctx. by rewrite get_write_same.
Qed.

Lemma save_frame (fact : string) config store
    (ns : Namespace) (key : string) :
  get (save_user_fact fact config store).2 ns key = get store ns key \/
  exists user, configurable config = Some (Some user) /\
               ns = ["facts"; user_id user] /\ key = "latest_fact".
Proof.
  unfold save_user_fact, put.
  destruct (configurable config) as [[user|]|]; [|by left..].
  destruct (valid_namespace ["facts"; user_id user]); cbn [snd];
    [|by left].
  destruct (decide ((["facts"; user_id user], "latest_fact") = (ns, key)))
    as [[= <- <-]|Hne].
  - right. by exists user.
  - left. by apply get_write_other.
Qed.

(** X8.  Saving a fact writes at most one key, "latest_fact" in the namespace
    of the calling user: every other key of the store reads as before, and
    a call without a user context leaves every key as it was. *)
Theorem save_writes_own_key_only (fact : string) config store
    (ns : Namespace) (key : string) :
  (get (save_user_fact fact config store).2 ns key = get store ns key \/
   exists user, configurable config = Some (Some user) /\
                ns = ["facts"; user_id user] /\ key = "latest_fact") /\
  ((forall user, configurable config <> Some (Some user)) ->
   get (save_user_fact fact config store).2 ns key = get store ns key).
Proof.
  split; [apply save_frame |].
  intros Hnone.
  destruct (save_frame fact config store ns key)
    as [Hsame|(user & Huser & _)]; [done |].
  by destruct (Hnone user).
Qed.

(** X9.  What one user saves does not change what a user with another id
    recalls. *)
Theorem recall_other_user (fact : string) config config' store user' :
  configurable config' = Some (Some user') ->
  (forall user, configurable config = Some (Some user) ->
                user_id user <> user_id user') ->
  recall_user_fact config' (save_user_fact fact config store).2
  = recall_user_fact config' store.
Proof.
  intros Hctx Hother. unfold recall_user_fact. rewrite Hctx.
  destruct (save_frame fact config store
              ["facts"; user_id user'] "latest_fact")
    as [->|(user & Huser & [= Hid] & _)]; [done |].
  by destruct (Hother user Huser).
Qed.

Lemma recall_of_stored config store user (before : option string) :
  configurable config = Some (Some user) ->
  get store ["facts"; user_id user] "latest_fact"
  = (fun fact => [("text", fact)]) <$> before ->
  recall_user_fact config store =
  match before with
  | Some fact => Returns ("Recall: " ++ fact)
  | None => Returns "No facts stored."
  end.
Proof.
  intros Hctx Hget. unfold recall_user_fact. rewrite Hctx, Hget.
  by destruct before.
Qed.

Lemma save_all_latest (calls : list (string * RunnableConfig)) store
    (id : string) (before : option string) :
  valid_namespace ["facts"; id] = true ->
  get store ["facts"; id] "latest_fact"
  = (fun fact => [("text", fact)]) <$> before ->
  get (save_all calls store) ["facts"; id] "latest_fact"
  = (fun fact => [("text", fact)]) <$> latest_fact id calls before.
Proof.
  intros Hvalid. revert store before.
  induction calls as [|[fact config] rest IH]; intros store before Hget;
    simpl; [done |].
  unfold save_user_fact, put.
  destruct (configurable config) as [[user|]|]; cbn [snd];
    [|by apply IH..].
  destruct (String.eqb_spec (user_id user) id) as [->|Hne].
  - rewrite Hvalid. cbn [snd]. apply IH. by rewrite get_write_same.
  - destruct (valid_namespace ["facts"; user_id user]); cbn [snd];
      apply IH; [|done].
    rewrite get_write_other; [done |]. by intros [= ?].
Qed.

(** X10.  For a user whose namespace the store accepts (an id that is not
    empty and holds no period) and who has no fact in the store, recalling
    after any sequence of calls of [save_user_fact] never fails, whoever
    made the calls (other users, calls without a context, calls the store
    refuses): the user is told the fact saved last under their id, or that
    no fact is stored. *)
Theorem recall_after_session (calls : list (string * RunnableConfig))
    store config user :
  configurable config = Some (Some user) ->
  valid_namespace ["facts"; user_id user] = true ->
  get store ["facts"; user_id user] "latest_fact" = None ->
  recall_user_fact config (save_all calls store) =
  match latest_fact (user_id user) calls None with
  | Some fact => Returns ("Recall: " ++ fact)
  | None => Returns "No facts stored."
  end.
Proof.
  intros Hctx Hvalid Hempty. apply (recall_of_stored _ _ user); [done |].
  by apply save_all_latest.
Qed.

(** A refused save changes nothing: the session goes on with the store as
    it was. *)
Lemma save_refused (fact : string) config store user :
  configurable config = Some (Some user) ->
  valid_namespace ["facts"; user_id user] = false ->
  save_user_fact fact config store = (InvalidNamespaceError, store).
Proof.
  intros Hctx Hinvalid. rewrite (save_under_context _ _ _ _ Hctx).
  by rewrite Hinvalid.
Qed.

End Tools02Facts.

(** The in-memory store keeps the promises of a backend. *)
#[global] Instance InMemoryStore_ok :
  @Tools02.BaseStoreOk Tools02.InMemoryStore Tools02.InMemoryStore_store.
Proof.
  split; unfold Tools02.get, Tools02.write; simpl.
  - intros st ns key value. apply lookup_insert_eq.
  - intros st ns key value ns' key' Hne. by apply lookup_insert_ne.
Qed.

Example save_empty_user_id_refused :
  Tools02.save_user_fact "I am nobody." Sessions.nameless Sessions.fresh
  = (Tools02.InvalidNamespaceError, Sessions.fresh) /\
  Tools02.save_user_fact "I have a dot." Sessions.dotted Sessions.fresh
  = (Tools02.InvalidNamespaceError, Sessions.fresh).
Proof. by split. Qed.

Lemma recall_after_save_witness :
  (Tools02.save_user_fact "I love coding." Sessions.alice Sessions.fresh).1
  = Tools02.Returns "Fact saved successfully." /\
  Tools02.recall_user_fact Sessions.alice
    (Tools02.save_user_fact "I love coding." Sessions.alice Sessions.fresh).2
  = Tools02.Returns "Recall: I love coding.".
Proof.
  exact (recall_after_save "I love coding." Sessions.alice Sessions.fresh
           (Tools02.mkUser "u_123" "Alice") eq_refl).
Defined.

Lemma save_writes_own_key_only_witness :
  Tools02.get
    (Tools02.save_user_fact "I love coding." Sessions.alice Sessions.fresh).2
    ["facts"; "u_456"] "latest_fact"
  = Tools02.get Sessions.fresh ["facts"; "u_456"] "latest_fact".
Proof.
  destruct (proj1 (save_writes_own_key_only "I love coding." Sessions.alice
                     Sessions.fresh ["facts"; "u_456"] "latest_fact"))
    as [Hsame|(user & Huser & Hns & _)].
  - exact Hsame.
  - injection Huser as <-. discriminate Hns.
Defined.

Lemma recall_other_user_witness :
  Tools02.recall_user_fact Sessions.bob
    (Tools02.save_user_fact "I love coding." Sessions.alice Sessions.fresh).2
  = Tools02.recall_user_fact Sessions.bob Sessions.fresh.
Proof.
  apply (recall_other_user "I love coding." Sessions.alice Sessions.bob
           Sessions.fresh (Tools02.mkUser "u_456" "Bob") eq_refl).
  intros user [= <-]. discriminate.
Defined.

Lemma recall_after_session_witness :
  Tools02.recall_user_fact Sessions.alice
    (Tools02.save_all Sessions.afternoon Sessions.fresh)
  = Tools02.Returns "Recall: I love proofs.".
Proof.
  exact (recall_after_session Sessions.afternoon Sessions.fresh
           Sessions.alice (Tools02.mkUser "u_123" "Alice")
           eq_refl eq_refl eq_refl).
Defined.

(** ** agent_02.py : the loop of the agent *)

Section ToolCallLoopFacts.
Import ToolCallLoop.

Variables (ceiling : nat) (client : ModelClient) (registry : ToolRegistry).

Implicit Types (l : Loop) (d n : nat).

Lemma step_finished l :
  finished l = true -> step ceiling client registry l = l.
Proof. unfold finished, step. by destruct (state l). Qed.

(** Once the loop has ended, further transitions change nothing. *)
Lemma steps_finished n l :
  finished l = true -> steps ceiling client registry n l = l.
Proof.
  intros Hend. induction n as [|n IH]; simpl; [done |].
  by rewrite step_finished.
Qed.

(** From AWAITING_MODEL with [d] iterations left, two transitions per
    iteration and one more end the loop. *)
Lemma awaiting_run d l :
  state l = AWAITING_MODEL ->
  round_trips l + d = ceiling ->
  let final := steps ceiling client registry (2 * d + 1) l in
  finished final = true /\
  round_trips final <= ceiling /\
  (state final = FAILED MaxIterationsExceeded ->
   round_trips final = ceiling) /\
  (always_requests client ->
   state final = FAILED MaxIterationsExceeded /\
   round_trips final = ceiling).
Proof.
  revert l. induction d as [|d IH]; intros l Hstate Htrips.
  - simpl. unfold step. rewrite Hstate.
    assert (Hguard : (ceiling <=? round_trips l)%nat = true)
      by (apply Nat.leb_le; lia).
    rewrite Hguard. simpl. repeat split; lia.
  - replace (2 * S d + 1) with (S (S (2 * d + 1))) by lia.
    cbn [steps].
    assert (Hguard : (ceiling <=? round_trips l)%nat = false)
      by (apply Nat.leb_gt; lia).
    assert (Hfirst : step ceiling client registry l =
      match client (round_trips l) (conversation l) with
      | inl e =>
          {| state := FAILED (ClientFailure e);
             conversation := conversation l;
             round_trips := S (round_trips l) |}
      | inr response =>
          {| state := match tool_calls response with
                      | [] => DONE
                      | requests => EXECUTING_TOOLS requests
                      end;
             conversation := (conversation l ++ [AI response])%list;
             round_trips := S (round_trips l) |}
      end).
    { unfold step. by rewrite Hstate, Hguard. }
    rewrite Hfirst. clear Hfirst.
    destruct (client (round_trips l) (conversation l))
      as [e|response] eqn:Hclient.
    + rewrite step_finished, steps_finished by done. simpl.
      split; [done |]. split; [lia |]. split; [done |].
      intros Halways.
      destruct (Halways (round_trips l) (conversation l))
        as (response & Hresp & _). congruence.
    + destruct (tool_calls response) as [|request requests] eqn:Hcalls.
      * rewrite step_finished, steps_finished by done. simpl.
        split; [done |]. split; [lia |]. split; [done |].
        intros Halways.
        destruct (Halways (round_trips l) (conversation l))
          as (response' & Hresp & Hsome). congruence.
      * assert (Hsecond : forall conv n,
          step ceiling client registry
            {| state := EXECUTING_TOOLS (request :: requests);
               conversation := conv; round_trips := n |}
          = {| state := AWAITING_MODEL;
               conversation :=
                 (conv ++ map (answer registry) (request :: requests))%list;
               round_trips := n |}) by done.
        rewrite Hsecond. apply IH; simpl; [done | lia].
Qed.

(** C6.  The tool-call loop always ends, for every model client: its run
    reaches DONE or FAILED, after at most [ceiling] round-trips, and
    further transitions change nothing.  It reports MaxIterationsExceeded
    only after exactly [ceiling] round-trips; for a client that requests
    tool calls on every response it does report MaxIterationsExceeded,
    after exactly [ceiling] round-trips, never more.  With the default
    ceiling the round-trips are at most 10. *)
Theorem loop_stops_within_ceiling (prior : Conversation)
    (user_message : Message) :
  let final := tool_call_loop ceiling client registry prior user_message in
  finished final = true /\
  round_trips final <= ceiling /\
  (state final = FAILED MaxIterationsExceeded ->
   round_trips final = ceiling) /\
  (forall more : nat, steps ceiling client registry more final = final) /\
  (always_requests client ->
   state final = FAILED MaxIterationsExceeded /\
   round_trips final = ceiling) /\
  (ceiling = default_ceiling -> round_trips final <= 10).
Proof.
  intros final.
  destruct (awaiting_run ceiling (start prior user_message))
    as (Hend & Hle & Hmax & Halways); [done | simpl; lia |].
  fold (tool_call_loop ceiling client registry prior user_message) in *.
  fold final in Hend, Hle, Hmax, Halways.
  split; [done |]. split; [done |]. split; [done |].
  split; [by intros more; apply steps_finished |].
  split; [done |].
  intros ->. exact Hle.
Qed.

End ToolCallLoopFacts.

Lemma insistent_always_requests :
  ToolCallLoop.always_requests ToolCallLoop.insistent.
Proof. intros n conv. eexists. split; [reflexivity | discriminate]. Qed.

(** The stub that always requests a tool call, under the default ceiling
    and under a ceiling of 3. *)
Example insistent_hits_ceiling :
  let run := fun ceiling =>
    ToolCallLoop.tool_call_loop ceiling ToolCallLoop.insistent
      ToolCallLoop.calculator [] (HumanMessage "What is 134 times 12?") in
  ToolCallLoop.state (run ToolCallLoop.default_ceiling)
  = ToolCallLoop.FAILED ToolCallLoop.MaxIterationsExceeded /\
  ToolCallLoop.round_trips (run ToolCallLoop.default_ceiling) = 10 /\
  ToolCallLoop.state (run 3)
  = ToolCallLoop.FAILED ToolCallLoop.MaxIterationsExceeded /\
  ToolCallLoop.round_trips (run 3) = 3 /\
  length (ToolCallLoop.conversation (run 3)) = 7.
Proof. vm_compute. by repeat split. Qed.
